(** * Omega Gateway: a verified model of [matverse/omega_gateway.py]

    The module is embedded function by function.  Python [float] values are
    modelled by [pyfloat]: an exact rational, or one of the three non-finite
    values.  Arithmetic on the finite part is exact (rounding, overflow and the
    sign of zero are not modelled); the treatment of [nan] and of the
    infinities by comparisons and by the arithmetic operators follows IEEE 754
    as Python exposes it.  Operations that can raise in Python ([/] on a zero
    divisor, [int] of a non-finite value) return [option].

    The evaluation records stored by [OmegaValidator] are Python dictionaries,
    that is, mutable heap objects; they live in an explicit [heap] and the
    validator holds references to them. *)

From Stdlib Require Import QArith Qminmax Qround Qabs Lqa Lia ZArith List Sorted Permutation.
From stdpp Require Import gmap strings list fin_maps sorting.

Local Open Scope Z_scope.
Local Open Scope Q_scope.

(** ** Python floats *)

Module PyFloat.

Inductive pyfloat : Type :=
  | Fin (q : Q)
  | PInf
  | NInf
  | NaN.

(** [math.isfinite] *)
Definition isfinite (x : pyfloat) : bool :=
  match x with Fin _ => true | _ => false end.

Definition Qltb (a b : Q) : bool := negb (Qle_bool b a).

(** [x < y] *)
Definition flt (x y : pyfloat) : bool :=
  match x, y with
  | NaN, _ | _, NaN => false
  | Fin a, Fin b => Qltb a b
  | NInf, NInf => false
  | NInf, _ => true
  | _, NInf => false
  | PInf, _ => false
  | Fin _, PInf => true
  end.

(** [x <= y] *)
Definition fle (x y : pyfloat) : bool :=
  match x, y with
  | NaN, _ | _, NaN => false
  | Fin a, Fin b => Qle_bool a b
  | NInf, _ => true
  | _, PInf => true
  | _, NInf => false
  | PInf, _ => false
  end.

(** [x > y] and [x >= y] *)
Definition fgt (x y : pyfloat) : bool := flt y x.
Definition fge (x y : pyfloat) : bool := fle y x.

Definition fneg (x : pyfloat) : pyfloat :=
  match x with
  | Fin a => Fin (- a)
  | PInf => NInf
  | NInf => PInf
  | NaN => NaN
  end.

(** [x + y] *)
Definition fadd (x y : pyfloat) : pyfloat :=
  match x, y with
  | NaN, _ | _, NaN => NaN
  | Fin a, Fin b => Fin (a + b)
  | PInf, NInf | NInf, PInf => NaN
  | PInf, _ | _, PInf => PInf
  | NInf, _ | _, NInf => NInf
  end.

(** [x - y] *)
Definition fsub (x y : pyfloat) : pyfloat := fadd x (fneg y).

(** The sign of a rational as a comparison with zero. *)
Definition Qsign (a : Q) : comparison := (a ?= 0).

Definition inf_of_sign (c : comparison) : pyfloat :=
  match c with
  | Gt => PInf
  | Lt => NInf
  | Eq => NaN
  end.

Definition flip (c : comparison) : comparison := CompOpp c.

(** [x * y] *)
Definition fmul (x y : pyfloat) : pyfloat :=
  match x, y with
  | NaN, _ | _, NaN => NaN
  | Fin a, Fin b => Fin (a * b)
  | PInf, Fin b | Fin b, PInf => inf_of_sign (Qsign b)
  | NInf, Fin b | Fin b, NInf => inf_of_sign (flip (Qsign b))
  | PInf, PInf | NInf, NInf => PInf
  | PInf, NInf | NInf, PInf => NInf
  end.

(** [x / y]; [None] is [ZeroDivisionError], which Python raises for every
    dividend when the divisor is zero. *)
Definition fdiv (x y : pyfloat) : option pyfloat :=
  match y with
  | NaN => Some NaN
  | Fin b =>
      if Qeq_bool b 0 then None
      else Some match x with
                | Fin a => Fin (a / b)
                | PInf => inf_of_sign (Qsign b)
                | NInf => inf_of_sign (flip (Qsign b))
                | NaN => NaN
                end
  | PInf | NInf =>
      Some match x with
           | Fin _ => Fin 0
           | _ => NaN
           end
  end.

(** [int(x)]: truncation toward zero; [None] is the [ValueError] /
    [OverflowError] raised on a non-finite argument. *)
Definition pyint (x : pyfloat) : option Z :=
  match x with
  | Fin a => Some (Z.quot (Qnum a) (Zpos (Qden a)))
  | _ => None
  end.

(** [float(n)] for an [int], as the mixed-mode operators apply it. *)
Definition of_int (n : Z) : pyfloat := Fin (inject_Z n).

(** The two-argument builtins [max(a, b)] and [min(a, b)]: the first argument
    is kept unless the second one is strictly greater (smaller). *)
Definition pymax (a b : pyfloat) : pyfloat := if fgt b a then b else a.
Definition pymin (a b : pyfloat) : pyfloat := if flt b a then b else a.

(** [sum(l)]: starts from the integer [0] and adds left to right. *)
Definition pysum (l : list pyfloat) : pyfloat := fold_left fadd l (Fin 0).

End PyFloat.
Export PyFloat.

(** ** Python sequence helpers *)

(** [sorted(l, reverse=True)] on floats: a stable sort into descending order.
    An element moves behind another one only when it is strictly smaller, so
    equal elements keep their original order. *)
Fixpoint insert_desc (x : pyfloat) (l : list pyfloat) : list pyfloat :=
  match l with
  | [] => [x]
  | y :: t => if flt x y then y :: insert_desc x t else x :: l
  end.

Definition sorted_reverse (l : list pyfloat) : list pyfloat :=
  fold_right insert_desc [] l.

(** [l[:stop]]; a negative [stop] counts from the end. *)
Definition slice_to {A : Type} (l : list A) (stop : Z) : list A :=
  if (stop <? 0)%Z
  then firstn (Z.to_nat (Z.of_nat (length l) + stop)) l
  else firstn (Z.to_nat stop) l.

(** [len(l)] *)
Definition len {A : Type} (l : list A) : Z := Z.of_nat (length l).

(** [l[-1]] on a non-empty list *)
Definition last_item {A : Type} (l : list A) : option A := last l.

(** ** [OmegaWeights] *)

Module OmegaWeights.

Record t : Type := mk { psi : pyfloat; theta : pyfloat; cvar : pyfloat }.

(** The dataclass defaults. *)
Definition default : t := mk (Fin 0.45) (Fin 0.35) (Fin 0.20).

Definition normalized (self : t) : option t :=
  let total := pymax (fadd (fadd (psi self) (theta self)) (cvar self)) (Fin 0.000000000001) in
  p ← fdiv (psi self) total;
  th ← fdiv (theta self) total;
  c ← fdiv (cvar self) total;
  Some (mk p th c).

End OmegaWeights.

(** ** Scoring functions *)

Definition _DEF_MIN : pyfloat := Fin 0.
Definition _DEF_MAX : pyfloat := Fin 1.

Definition _clamp (value min_value max_value : pyfloat) : pyfloat :=
  if negb (isfinite value) then min_value
  else pymax min_value (pymin max_value value).

(** [weights or OmegaWeights()]: an [OmegaWeights] instance is always truthy,
    so the default is taken exactly when [weights] is [None]. *)
Definition weights_or_default (weights : option OmegaWeights.t) : OmegaWeights.t :=
  match weights with
  | Some w => w
  | None => OmegaWeights.default
  end.

Definition compute_omega (psi theta cvar : pyfloat)
    (weights : option OmegaWeights.t) : option pyfloat :=
  weights ← OmegaWeights.normalized (weights_or_default weights);
  let safe_psi := _clamp psi _DEF_MIN _DEF_MAX in
  let safe_theta := _clamp theta _DEF_MIN _DEF_MAX in
  let safe_cvar := fsub (Fin 1) (_clamp cvar _DEF_MIN _DEF_MAX) in
  let omega :=
    fadd (fadd (fmul safe_psi (OmegaWeights.psi weights))
               (fmul safe_theta (OmegaWeights.theta weights)))
         (fmul safe_cvar (OmegaWeights.cvar weights)) in
  Some (_clamp omega _DEF_MIN _DEF_MAX).

Definition compute_qcvar (samples : list pyfloat) (alpha : pyfloat) : option pyfloat :=
  let clamped_alpha := _clamp alpha (Fin 0.000001) (fsub (Fin 1) (Fin 0.000001)) in
  let clean := List.filter isfinite samples in
  match clean with
  | [] => Some (Fin 0)
  | _ :: _ =>
      let sorted_values := sorted_reverse clean in
      n ← pyint (fmul (of_int (len sorted_values)) (fsub (Fin 1) clamped_alpha));
      let tail_count := Z.max 1 (n + 1) in
      let tail_slice := slice_to sorted_values tail_count in
      fdiv (pysum tail_slice) (of_int (len tail_slice))
  end.

(** The mapping returned by [validate_governance_barrier]. *)
Record Barrier : Type := mkBarrier {
  omega_ok : bool;
  qcvar_ok : bool;
  barrier_production_ready : bool;
  barrier_omega_threshold : pyfloat;
  barrier_qcvar_limit : pyfloat
}.

Definition validate_governance_barrier
    (omega_score qcvar omega_threshold qcvar_limit : pyfloat) : Barrier :=
  let safe_threshold := _clamp omega_threshold _DEF_MIN _DEF_MAX in
  let safe_qcvar_limit := _clamp qcvar_limit _DEF_MIN _DEF_MAX in
  let omega_ok := fge (_clamp omega_score _DEF_MIN _DEF_MAX) safe_threshold in
  let qcvar_ok := fle (_clamp qcvar _DEF_MIN _DEF_MAX) safe_qcvar_limit in
  mkBarrier omega_ok qcvar_ok (omega_ok && qcvar_ok) safe_threshold safe_qcvar_limit.

(** The mapping returned by [antifragile_metric]. *)
Record Antifragile : Type := mkAntifragile {
  improvement : pyfloat;
  is_antifragile : bool;
  antifragile_coefficient : pyfloat
}.

Definition antifragile_metric (before after : pyfloat) (stress_applied : bool)
    : Antifragile :=
  let safe_before := _clamp before _DEF_MIN _DEF_MAX in
  let safe_after := _clamp after _DEF_MIN _DEF_MAX in
  let improvement := fsub safe_after safe_before in
  let coefficient := if stress_applied then improvement else Fin 0 in
  mkAntifragile improvement (stress_applied && fgt improvement (Fin 0)) coefficient.

(** ** The heap of evaluation records *)

(** An evaluation record is a [Dict[str, float]]; the heap maps references to
    the current contents of the dictionaries that exist. *)
Abbreviation loc := nat (only parsing).
Abbreviation pydict := (gmap string pyfloat) (only parsing).
Abbreviation heap := (gmap nat (gmap string pyfloat)) (only parsing).

(** Creating a dictionary object yields a reference that no existing object
    has. *)
Definition alloc (d : pydict) (σ : heap) : loc * heap :=
  let l := fresh (dom σ) in (l, <[l := d]> σ).

(** [[dict(entry) for entry in entries]]: every entry is read and a new
    dictionary with the same items is created.  [None] stands for a dangling
    reference, which Python cannot produce. *)
Fixpoint copy_entries (entries : list loc) (σ : heap) : option (list loc * heap) :=
  match entries with
  | [] => Some ([], σ)
  | entry :: rest =>
      d ← σ !! entry;
      let '(l, σ) := alloc d σ in
      '(ls, σ) ← copy_entries rest σ;
      Some (l :: ls, σ)
  end.

(** [while len(l) > max_history: l.pop(0)]; [None] is the [IndexError] of
    [pop] on an empty list. *)
Fixpoint trim {A : Type} (max_history : Z) (l : list A) : option (list A) :=
  match l with
  | [] => if (0 >? max_history)%Z then None else Some []
  | _ :: rest => if (len l >? max_history)%Z then trim max_history rest else Some l
  end.

(** ** [OmegaValidator] *)

Module OmegaValidator.

Record t : Type := mk {
  omega_threshold : pyfloat;
  qcvar_limit : pyfloat;
  qcvar_alpha : pyfloat;
  max_history : Z;
  min_samples : Z;
  _history : list loc;
  _omega_history : list pyfloat;
  _cvar_history : list pyfloat
}.

(** Assignment to the three history attributes. *)
Definition with_histories (self : t) (h : list loc) (o c : list pyfloat) : t :=
  mk (omega_threshold self) (qcvar_limit self) (qcvar_alpha self)
     (max_history self) (min_samples self) h o c.

Definition __init__ (omega_threshold qcvar_limit qcvar_alpha : pyfloat)
    (max_history min_samples : Z) : t :=
  mk (_clamp omega_threshold _DEF_MIN _DEF_MAX)
     (_clamp qcvar_limit _DEF_MIN _DEF_MAX)
     (_clamp qcvar_alpha (Fin 0.000001) (fsub (Fin 1) (Fin 0.000001)))
     (Z.max 1 max_history)
     (Z.max 1 min_samples)
     [] [] [].

Definition _trim_history (self : t) : option t :=
  h ← trim (max_history self) (_history self);
  o ← trim (max_history self) (_omega_history self);
  c ← trim (max_history self) (_cvar_history self);
  Some (with_histories self h o c).

Definition _compute_qcvar_history (self : t) : option pyfloat :=
  compute_qcvar (_cvar_history self) (qcvar_alpha self).

(** The mapping returned by [validate_system]. *)
Record Validation : Type := mkValidation {
  v_omega : pyfloat;
  v_qcvar : pyfloat;
  v_production_ready : bool;
  v_history_size : Z
}.

(** The dictionary literal stored by [validate_system]. *)
Definition make_record (psi theta cvar omega : pyfloat) : pydict :=
  <["omega" := omega]> (<["cvar" := cvar]> (<["theta" := theta]> (<["psi" := psi]> ∅))).

Definition validate_system (psi theta cvar : pyfloat)
    (weights : option OmegaWeights.t) (self : t) (σ : heap)
    : option (Validation * t * heap) :=
  omega ← compute_omega psi theta cvar weights;
  let safe_cvar := _clamp cvar _DEF_MIN _DEF_MAX in
  let '(record, σ) :=
    alloc (make_record (_clamp psi _DEF_MIN _DEF_MAX)
                       (_clamp theta _DEF_MIN _DEF_MAX) safe_cvar omega) σ in
  let self := with_histories self (_history self ++ [record])
                (_omega_history self ++ [omega])
                (_cvar_history self ++ [safe_cvar]) in
  self ← _trim_history self;
  qcvar_value ← _compute_qcvar_history self;
  let readiness :=
    validate_governance_barrier omega qcvar_value
      (omega_threshold self) (qcvar_limit self) in
  Some (mkValidation omega qcvar_value (barrier_production_ready readiness)
          (len (_history self)), self, σ).

(** The mapping returned by [get_system_health]. *)
Record Health : Type := mkHealth {
  latest_omega : pyfloat;
  h_qcvar : pyfloat;
  h_production_ready : bool;
  sample_count : Z
}.

Definition get_system_health (self : t) : option Health :=
  qcvar_value ← match _cvar_history self with
                | [] => Some (Fin 0)
                | _ :: _ => _compute_qcvar_history self
                end;
  latest_omega ← match _omega_history self with
                 | [] => Some (Fin 0)
                 | _ :: _ => last_item (_omega_history self)
                 end;
  let ready :=
    barrier_production_ready
      (validate_governance_barrier latest_omega qcvar_value
         (omega_threshold self) (qcvar_limit self)) in
  Some (mkHealth latest_omega qcvar_value
          (if (len (_history self) >=? min_samples self)%Z then ready else false)
          (len (_history self))).

(** The mapping returned by [get_validation_summary]; [latest] and the
    elements of [history] are references to dictionaries. *)
Record Summary : Type := mkSummary {
  latest : loc;
  history : list loc;
  s_qcvar : pyfloat;
  s_omega_threshold : pyfloat;
  s_qcvar_limit : pyfloat
}.

Definition get_validation_summary (self : t) (σ : heap) : option (Summary * heap) :=
  '(history_copy, σ) ← copy_entries (_history self) σ;
  '(latest, σ) ← match history_copy with
                 | [] => Some (alloc ∅ σ)
                 | _ :: _ => l ← last_item history_copy; Some (l, σ)
                 end;
  qcvar ← match _cvar_history self with
          | [] => Some (Fin 0)
          | _ :: _ => _compute_qcvar_history self
          end;
  Some (mkSummary latest history_copy qcvar (omega_threshold self) (qcvar_limit self), σ).

Definition reset (self : t) : t := with_histories self [] [] [].

End OmegaValidator.

(** * Specification-side definitions *)

(** What the specification calls clamping: bound a number into
    [[lo, hi]], a non-finite one becoming [lo]. *)
Definition clamp_spec (lo hi : Q) (x : pyfloat) : Q :=
  match x with
  | Fin q => Qmax lo (Qmin hi q)
  | _ => lo
  end.

Definition clamp01 : pyfloat -> Q := clamp_spec 0 1.

(** The sum of the three components of a weight triple. *)
Definition weight_sum (w : OmegaWeights.t) : pyfloat :=
  fadd (fadd (OmegaWeights.psi w) (OmegaWeights.theta w)) (OmegaWeights.cvar w).




(** The finite samples, as numbers, in their original order. *)
Definition finite_values (samples : list pyfloat) : list Q :=
  flat_map (fun x => match x with Fin q => [q] | _ => [] end) samples.

Definition Qsum (l : list Q) : Q := fold_right Qplus 0 l.

(** The arithmetic mean of a non-empty list. *)
Definition mean (l : list Q) : Q := Qsum l / inject_Z (len l).

(** Sorted in descending order. *)
Definition descending (l : list Q) : Prop := Sorted (fun a b => b <= a) l.

(** [alpha] clamped to [[1e-6, 1 - 1e-6]]. *)
Definition clamped_alpha (alpha : pyfloat) : Q :=
  clamp_spec 0.000001 (1 - 0.000001) alpha.

(** The tail size [k = max(1, floor(n * (1 - alpha')) + 1)]. *)
Definition tail_size (n : Z) (alpha : pyfloat) : Z :=
  Z.max 1 (Qfloor (inject_Z n * (1 - clamped_alpha alpha)) + 1).


(** The contract [compute_qcvar(samples, alpha) -> value >= 0] as the
    specification words it, for every sample list. *)
Definition qcvar_nonnegative (samples : list pyfloat) (alpha : pyfloat) : Prop :=
  exists r, compute_qcvar samples alpha = Some (Fin r) /\ 0 <= r.

(** ** The life cycle of a validator *)

Import OmegaValidator.

(** The states a validator and the heap around it can be in: the validator
    is constructed, then its methods are called; in between, the client may
    create dictionaries or change any dictionary other than the records the
    validator stores. *)
Inductive reachable : OmegaValidator.t -> heap -> Prop :=
  | reach_init (omega_threshold qcvar_limit qcvar_alpha : pyfloat)
      (max_history min_samples : Z) (σ : heap) :
      reachable (__init__ omega_threshold qcvar_limit qcvar_alpha max_history min_samples) σ
  | reach_validate (self self' : OmegaValidator.t) (σ σ' : heap)
      (psi theta cvar : pyfloat) (weights : option OmegaWeights.t) (res : Validation) :
      reachable self σ ->
      validate_system psi theta cvar weights self σ = Some (res, self', σ') ->
      reachable self' σ'
  | reach_summary (self : OmegaValidator.t) (σ σ' : heap) (s : Summary) :
      reachable self σ ->
      get_validation_summary self σ = Some (s, σ') ->
      reachable self σ'
  | reach_reset (self : OmegaValidator.t) (σ : heap) :
      reachable self σ ->
      reachable (reset self) σ
  | reach_client (self : OmegaValidator.t) (σ : heap) (l : loc) (d : pydict) :
      reachable self σ ->
      ~ List.In l (_history self) ->
      reachable self (<[l := d]> σ).

(** A float that is a number of the unit interval. *)
Definition unit_float (x : pyfloat) : Prop := exists q, x = Fin q /\ 0 <= q <= 1.

(** The invariant of the validator's attributes. *)
Record valid (self : OmegaValidator.t) : Prop := mkValid {
  valid_max : (1 <= max_history self)%Z;
  valid_min : (1 <= min_samples self)%Z;
  valid_len_omega : length (_omega_history self) = length (_history self);
  valid_len_cvar : length (_cvar_history self) = length (_history self);
  valid_bound : (len (_history self) <= max_history self)%Z;
  valid_omega : List.Forall unit_float (_omega_history self);
  valid_cvar : List.Forall unit_float (_cvar_history self)
}.

(** Every stored reference denotes a dictionary of the heap. *)
Definition owns (self : OmegaValidator.t) (σ : heap) : Prop :=
  List.Forall (fun l => is_Some (σ !! l)) (_history self).

(** The newest [m] elements of a list: what remains when the oldest are
    evicted first. *)
Definition newest {A : Type} (m : Z) (l : list A) : list A :=
  skipn (length l - Z.to_nat m) l.

(** The arguments of one [validate_system] call. *)
Record call : Type := mkCall {
  c_psi : pyfloat;
  c_theta : pyfloat;
  c_cvar : pyfloat;
  c_weights : option OmegaWeights.t
}.

(** The Omega score a call computes and the record it stores. *)
Definition omega_of (c : call) : option pyfloat :=
  compute_omega (c_psi c) (c_theta c) (c_cvar c) (c_weights c).

Definition record_of (c : call) : option pydict :=
  omega ← omega_of c;
  Some (make_record (_clamp (c_psi c) _DEF_MIN _DEF_MAX)
                    (_clamp (c_theta c) _DEF_MIN _DEF_MAX)
                    (_clamp (c_cvar c) _DEF_MIN _DEF_MAX) omega).

(** A sequence of [validate_system] calls, one after the other. *)
Fixpoint validate_all (calls : list call) (self : OmegaValidator.t) (σ : heap)
    : option (OmegaValidator.t * heap) :=
  match calls with
  | [] => Some (self, σ)
  | c :: rest =>
      '(_, self, σ) ← validate_system (c_psi c) (c_theta c) (c_cvar c) (c_weights c) self σ;
      validate_all rest self σ
  end.

(** The contents of the dictionaries a list of references denotes. *)
Definition contents (σ : heap) (ls : list loc) : list (option pydict) :=
  map (fun l => σ !! l) ls.

(** The state after a call, written out: the three histories are extended
    and then reduced to their newest [max_history] elements. *)
Definition after_validate (self : OmegaValidator.t) (r : loc) (omega safe_cvar : pyfloat)
    : OmegaValidator.t :=
  with_histories self
    (newest (max_history self) (_history self ++ [r]))
    (newest (max_history self) (_omega_history self ++ [omega]))
    (newest (max_history self) (_cvar_history self ++ [safe_cvar])).

(** ** A concrete run

    The scenario of the test-suite: a validator with [min_samples = 3] and
    two evaluations of a healthy system. *)
Definition demo_call : call := mkCall (Fin 0.9) (Fin 0.9) (Fin 0.05) None.

Definition demo_init : OmegaValidator.t :=
  __init__ (Fin 0.9) (Fin 0.1) (Fin 0.9) 100 3.

Definition demo_state : OmegaValidator.t * heap :=
  default (demo_init, ∅) (validate_all [demo_call; demo_call] demo_init ∅).

(** ** Equality of values

    Two floats denote the same value: rationals are compared as numbers, not
    as fractions. *)
Definition feq (x y : pyfloat) : Prop :=
  match x, y with
  | Fin a, Fin b => a == b
  | PInf, PInf | NInf, NInf | NaN, NaN => True
  | _, _ => False
  end.


(** ** Configuration and stored records *)

(** The five attributes fixed by the constructor. *)
Definition config (self : OmegaValidator.t) : pyfloat * pyfloat * pyfloat * Z * Z :=
  (omega_threshold self, qcvar_limit self, qcvar_alpha self,
   max_history self, min_samples self).

(** The constructor's coercions leave the configuration as it is. *)
Definition config_coerced (self : OmegaValidator.t) : Prop :=
  _clamp (omega_threshold self) _DEF_MIN _DEF_MAX = omega_threshold self /\
  _clamp (qcvar_limit self) _DEF_MIN _DEF_MAX = qcvar_limit self /\
  _clamp (qcvar_alpha self) (Fin 0.000001) (fsub (Fin 1) (Fin 0.000001)) = qcvar_alpha self /\
  Z.max 1 (max_history self) = max_history self /\
  Z.max 1 (min_samples self) = min_samples self.

(** [σ[l][key]], when both the dictionary and the key exist. *)
Definition field_of (σ : heap) (key : string) (l : loc) : option pyfloat :=
  d ← σ !! l; d !! key.

(** The stored records and the two derived sequences run in lock-step. *)
Definition in_lock_step (self : OmegaValidator.t) (σ : heap) : Prop :=
  map (field_of σ "omega") (_history self) = map Some (_omega_history self) /\
  map (field_of σ "cvar") (_history self) = map Some (_cvar_history self) /\
  List.Forall (fun l => exists p t, field_of σ "psi" l = Some p /\ unit_float p /\
                                    field_of σ "theta" l = Some t /\ unit_float t)
    (_history self).

(** A validator whose history is shorter than its sample gate: three calls
    with [max_history = 2] and [min_samples = 5]. *)
Definition demo_short_state : OmegaValidator.t * heap :=
  let init := __init__ (Fin 0.5) (Fin 0.5) (Fin 0.9) 2 5 in
  default (init, ∅) (validate_all [demo_call; demo_call; demo_call] init ∅).

(** * Properties *)

(** ** Comparisons and the clamp *)

Section Comparisons.

Lemma Qle_bool_false (a b : Q) : Qle_bool a b = false -> b < a.
Proof.
  intros H. destruct (Qlt_le_dec b a) as [Hlt | Hle]; [exact Hlt |].
  apply Qle_bool_iff in Hle. congruence.
Qed.

Lemma Qltb_true (a b : Q) : Qltb a b = true <-> a < b.
Proof.
  unfold Qltb. split.
  - intros H. apply negb_true_iff in H. now apply Qle_bool_false.
  - intros H. apply negb_true_iff. destruct (Qle_bool b a) eqn:E; [| reflexivity].
    apply Qle_bool_iff in E. lra.
Qed.

Lemma Qltb_false (a b : Q) : Qltb a b = false <-> b <= a.
Proof.
  unfold Qltb. rewrite negb_false_iff. apply Qle_bool_iff.
Qed.

Lemma Qeq_bool_false (a b : Q) : Qeq_bool a b = false -> ~ a == b.
Proof.
  intros H E. apply Qeq_bool_iff in E. congruence.
Qed.

End Comparisons.

(** Case analysis on every rational test in the goal, leaving the facts as
    hypotheses that [lra] understands. *)
Ltac qcases :=
  repeat match goal with
  | |- context [Qltb ?a ?b] =>
      let E := fresh "E" in
      destruct (Qltb a b) eqn:E;
      [apply Qltb_true in E | apply Qltb_false in E]
  | |- context [Qle_bool ?a ?b] =>
      let E := fresh "E" in
      destruct (Qle_bool a b) eqn:E;
      [apply Qle_bool_iff in E | apply Qle_bool_false in E]
  | |- context [Qeq_bool ?a ?b] =>
      let E := fresh "E" in
      destruct (Qeq_bool a b) eqn:E;
      [apply Qeq_bool_iff in E | apply Qeq_bool_false in E]
  end.

Lemma _clamp_spec (lo hi : Q) (x : pyfloat) :
  exists q, _clamp x (Fin lo) (Fin hi) = Fin q /\ q == clamp_spec lo hi x.
Proof.
  destruct x as [v | | |]; simpl; try (eexists; split; [reflexivity | reflexivity]).
  unfold _clamp, pymax, pymin, fgt, flt; simpl.
  destruct (Q.min_spec hi v) as [[H1 H2] | [H1 H2]];
    destruct (Q.max_spec lo (Qmin hi v)) as [[H3 H4] | [H3 H4]];
    qcases; simpl; qcases; eexists; (split; [reflexivity | lra]).
Qed.

Lemma clamp_spec_bounds (lo hi : Q) (x : pyfloat) :
  lo <= hi -> lo <= clamp_spec lo hi x <= hi.
Proof.
  intros Hlh. destruct x as [v | | |]; simpl; try lra.
  destruct (Q.min_spec hi v) as [[H1 H2] | [H1 H2]];
    destruct (Q.max_spec lo (Qmin hi v)) as [[H3 H4] | [H3 H4]]; lra.
Qed.

Lemma _clamp_bounds (lo hi : Q) (x : pyfloat) :
  lo <= hi -> exists q, _clamp x (Fin lo) (Fin hi) = Fin q /\ lo <= q <= hi.
Proof.
  intros Hlh. destruct (_clamp_spec lo hi x) as (q & Hq & Heq).
  exists q. split; [exact Hq |]. pose proof (clamp_spec_bounds lo hi x Hlh). lra.
Qed.

Lemma _clamp_unit (x : pyfloat) :
  exists q, _clamp x _DEF_MIN _DEF_MAX = Fin q /\ 0 <= q <= 1.
Proof. apply _clamp_bounds. lra. Qed.

(** ** [OmegaWeights.normalized] never divides by zero *)

Lemma guarded_total_cases (s : pyfloat) :
  match pymax s (Fin 0.000000000001) with
  | Fin b => 0.000000000001 <= b
  | NInf => False
  | _ => True
  end.
Proof.
  destruct s as [a | | |]; unfold pymax, fgt, flt; simpl; try exact I.
  - qcases; lra.
  - lra.
Qed.

Lemma fdiv_is_Some (x y : pyfloat) :
  (forall b, y = Fin b -> ~ b == 0) -> is_Some (fdiv x y).
Proof.
  intros Hy. destruct y as [b | | |]; simpl; try (eexists; reflexivity).
  destruct (Qeq_bool b 0) eqn:E; [| eexists; reflexivity].
  apply Qeq_bool_iff in E. now destruct (Hy b eq_refl).
Qed.

Lemma normalized_total (w : OmegaWeights.t) : is_Some (OmegaWeights.normalized w).
Proof.
  unfold OmegaWeights.normalized.
  pose proof (guarded_total_cases
    (fadd (fadd (OmegaWeights.psi w) (OmegaWeights.theta w)) (OmegaWeights.cvar w))) as Ht.
  set (total := pymax _ _) in *.
  assert (Hnz : forall b, total = Fin b -> ~ b == 0).
  { intros b Hb E. rewrite Hb in Ht. cbv beta iota in Ht. lra. }
  destruct (fdiv_is_Some (OmegaWeights.psi w) total Hnz) as [p ->].
  destruct (fdiv_is_Some (OmegaWeights.theta w) total Hnz) as [th ->].
  destruct (fdiv_is_Some (OmegaWeights.cvar w) total Hnz) as [c ->].
  simpl. eexists; reflexivity.
Qed.

(** ** The Omega score *)

Lemma compute_omega_bounded
    (psi theta cvar : pyfloat) (weights : option OmegaWeights.t) :
  exists q, compute_omega psi theta cvar weights = Some (Fin q) /\ 0 <= q <= 1.
Proof.
  unfold compute_omega.
  destruct (normalized_total (weights_or_default weights)) as [w ->]. simpl.
  match goal with |- context [Some (_clamp ?o _ _)] =>
    destruct (_clamp_unit o) as (q & -> & Hq) end.
  exists q. split; [reflexivity | exact Hq].
Qed.

(** C4: for all inputs [psi], [theta], [cvar] (finite or not) and any optional
    weights, [compute_omega] returns normally and its value lies in the closed
    interval [[0, 1]]. *)
Theorem compute_omega_in_unit_interval
    (psi theta cvar : pyfloat) (weights : option OmegaWeights.t) :
  exists q, compute_omega psi theta cvar weights = Some (Fin q) /\ 0 <= q <= 1.
Proof. apply compute_omega_bounded. Qed.

(** ** The governance barrier *)

(** C5: [validate_governance_barrier] is a total function (it is defined on
    every input and has no failing branch) with
    [omega_ok = (clamp(omega_score) >= clamp(omega_threshold))],
    [qcvar_ok = (clamp(qcvar) <= clamp(qcvar_limit))] and
    [production_ready = omega_ok and qcvar_ok], where the clamp bounds into
    [[0, 1]]; the two thresholds are returned clamped. *)
Theorem validate_governance_barrier_spec
    (omega_score qcvar omega_threshold qcvar_limit : pyfloat) :
  exists b t l,
    validate_governance_barrier omega_score qcvar omega_threshold qcvar_limit = b /\
    (omega_ok b = true <-> clamp01 omega_threshold <= clamp01 omega_score) /\
    (qcvar_ok b = true <-> clamp01 qcvar <= clamp01 qcvar_limit) /\
    barrier_production_ready b = omega_ok b && qcvar_ok b /\
    barrier_omega_threshold b = Fin t /\ t == clamp01 omega_threshold /\
    barrier_qcvar_limit b = Fin l /\ l == clamp01 qcvar_limit.
Proof.
  unfold validate_governance_barrier, clamp01, _DEF_MIN, _DEF_MAX.
  destruct (_clamp_spec 0 1 omega_score) as (s & -> & Hs).
  destruct (_clamp_spec 0 1 qcvar) as (c & -> & Hc).
  destruct (_clamp_spec 0 1 omega_threshold) as (t & -> & Ht).
  destruct (_clamp_spec 0 1 qcvar_limit) as (l & -> & Hl).
  eexists _, t, l. split; [reflexivity |]. simpl.
  unfold fge, fle. rewrite !Qle_bool_iff.
  repeat split; try assumption; lra.
Qed.

(** ** The antifragility metric *)

(** C9: [antifragile_metric] returns
    [improvement = clamp(after) - clamp(before)], a value in [[-1, 1]];
    [is_antifragile] holds exactly when [stress_applied] is set and the
    improvement is strictly positive, so that a zero improvement under stress
    is not antifragile; and [antifragile_coefficient] is the improvement under
    stress and exactly [0.0] otherwise. *)
Theorem antifragile_metric_spec (before after : pyfloat) (stress_applied : bool) :
  exists d,
    let m := antifragile_metric before after stress_applied in
    improvement m = Fin d /\
    d == clamp01 after - clamp01 before /\
    -1 <= d <= 1 /\
    (is_antifragile m = true <-> stress_applied = true /\ 0 < d) /\
    (d == 0 -> is_antifragile m = false) /\
    antifragile_coefficient m = (if stress_applied then Fin d else Fin 0).
Proof.
  unfold antifragile_metric, clamp01, _DEF_MIN, _DEF_MAX.
  destruct (_clamp_spec 0 1 before) as (b & -> & Hb).
  destruct (_clamp_spec 0 1 after) as (a & -> & Ha).
  pose proof (clamp_spec_bounds 0 1 before) as Bb.
  pose proof (clamp_spec_bounds 0 1 after) as Ba.
  exists (a + - b). simpl. unfold fgt, flt.
  split; [reflexivity |]. split; [lra |]. split; [lra |].
  split; [| split].
  - rewrite andb_true_iff, Qltb_true. tauto.
  - intros Hz. apply andb_false_iff. right. apply Qltb_false. lra.
  - reflexivity.
Qed.

(** ** Weight normalization *)

Lemma normalized_finite (a b c : Q) :
  let t := if Qltb (a + b + c) 0.000000000001 then 0.000000000001 else a + b + c in
  OmegaWeights.normalized (OmegaWeights.mk (Fin a) (Fin b) (Fin c))
  = Some (OmegaWeights.mk (Fin (a / t)) (Fin (b / t)) (Fin (c / t))).
Proof.
  unfold OmegaWeights.normalized, pymax, fgt, flt; simpl.
  destruct (Qltb (a + b + c) 0.000000000001) eqn:E; simpl.
  - reflexivity.
  - apply Qltb_false in E.
    destruct (Qeq_bool (a + b + c) 0) eqn:Z; [| reflexivity].
    apply Qeq_bool_iff in Z. lra.
Qed.




(** Below the floor the components sum to the raw total divided by the
    floor, which is less than 1. *)
Lemma normalized_sum_below_floor (a b c : Q) :
  a + b + c < 0.000000000001 ->
  exists w s,
    OmegaWeights.normalized (OmegaWeights.mk (Fin a) (Fin b) (Fin c)) = Some w /\
    weight_sum w = Fin s /\ s == (a + b + c) / 0.000000000001.
Proof.
  intros Hsum. rewrite normalized_finite.
  assert (E : Qltb (a + b + c) 0.000000000001 = true) by (apply Qltb_true; lra).
  rewrite E. cbv zeta.
  eexists _, _. split; [reflexivity |]. unfold weight_sum; simpl.
  split; [reflexivity |]. field.
Qed.

(** ** Sorting *)

Section Sorting.

Lemma filter_isfinite (samples : list pyfloat) :
  List.filter isfinite samples = map Fin (finite_values samples).
Proof.
  induction samples as [| x rest IH]; [reflexivity |].
  destruct x; simpl; rewrite IH; reflexivity.
Qed.

Lemma insert_desc_finite (x : Q) (l : list Q) :
  exists l', insert_desc (Fin x) (map Fin l) = map Fin l' /\
             Permutation l' (x :: l) /\
             (descending l -> descending l').
Proof.
  induction l as [| y t (t' & Ht & Hp & Hs)]; simpl.
  - exists [x]. repeat split; auto. intros _. repeat constructor.
  - destruct (Qltb x y) eqn:E.
    + apply Qltb_true in E. exists (y :: t'). rewrite Ht. split; [reflexivity |].
      split.
      * rewrite Hp. apply perm_swap.
      * intros Hd. apply Sorted_inv in Hd as [Hd Hhd].
        constructor; [exact (Hs Hd) |].
        assert (Hin : forall z, List.In z t' -> z = x \/ List.In z t).
        { intros z Hz. eapply Permutation_in in Hz; [| exact Hp].
          destruct Hz as [<- | Hz]; auto. }
        destruct t' as [| z t'']; constructor; cbv beta.
        destruct (Hin z (or_introl eq_refl)) as [-> | Hz]; [lra |].
        destruct t as [| w t0]; [destruct Hz |].
        apply HdRel_inv in Hhd.
        apply Sorted_StronglySorted in Hd; [| intros a b c ? ?; lra].
        apply StronglySorted_inv in Hd as [_ Hall].
        destruct Hz as [-> | Hz]; [lra |].
        rewrite List.Forall_forall in Hall. specialize (Hall z Hz).
        cbv beta in Hall. lra.
    + apply Qltb_false in E. exists (x :: y :: t). split; [reflexivity |].
      split; [reflexivity |]. intros Hd. constructor; [exact Hd |].
      constructor. exact E.
Qed.

Lemma sorted_reverse_finite (l : list Q) :
  exists l', sorted_reverse (map Fin l) = map Fin l' /\
             Permutation l' l /\ descending l'.
Proof.
  unfold sorted_reverse.
  induction l as [| x t (t' & Ht & Hp & Hs)]; simpl.
  - exists []. repeat split; auto. constructor.
  - rewrite Ht.
    destruct (insert_desc_finite x t') as (l' & Hl & Hp' & Hs').
    exists l'. split; [exact Hl |]. split; [| auto].
    rewrite Hp'. now constructor.
Qed.

End Sorting.

(** ** Sums, means and the tail size *)

Section TailMean.

Lemma pysum_finite_from (l : list Q) (a : Q) :
  exists s, fold_left fadd (map Fin l) (Fin a) = Fin s /\ s == a + Qsum l.
Proof.
  revert a. induction l as [| x t IH]; intros a; simpl.
  - exists a. split; [reflexivity | lra].
  - destruct (IH (a + x)) as (s & Hs & Heq). exists s. split; [exact Hs | lra].
Qed.

Lemma pysum_finite (l : list Q) :
  exists s, pysum (map Fin l) = Fin s /\ s == Qsum l.
Proof.
  destruct (pysum_finite_from l 0) as (s & Hs & Heq).
  exists s. split; [exact Hs | lra].
Qed.

Lemma Qsum_Qred (l : list Q) : Qsum (map Qred l) == Qsum l.
Proof.
  induction l as [| x t IH]; simpl; [reflexivity |].
  rewrite IH, Qred_correct. reflexivity.
Qed.

Lemma len_cons {A : Type} (x : A) (l : list A) : len (x :: l) = (1 + len l)%Z.
Proof. unfold len. simpl length. lia. Qed.

Lemma len_nonneg {A : Type} (l : list A) : (0 <= len l)%Z.
Proof. unfold len. lia. Qed.

Lemma Qsum_lower (lo : Q) (l : list Q) :
  List.Forall (fun q => lo <= q) l -> inject_Z (len l) * lo <= Qsum l.
Proof.
  induction 1 as [| x t Hx _ IH].
  - change (inject_Z (len [])) with 0. simpl Qsum. lra.
  - rewrite len_cons, inject_Z_plus. simpl Qsum.
    change (inject_Z 1) with 1. lra.
Qed.

Lemma Qsum_upper (hi : Q) (l : list Q) :
  List.Forall (fun q => q <= hi) l -> Qsum l <= inject_Z (len l) * hi.
Proof.
  induction 1 as [| x t Hx _ IH].
  - change (inject_Z (len [])) with 0. simpl Qsum. lra.
  - rewrite len_cons, inject_Z_plus. simpl Qsum.
    change (inject_Z 1) with 1. lra.
Qed.

Lemma len_positive {A : Type} (l : list A) : l <> [] -> 0 < inject_Z (len l).
Proof.
  intros Hne. destruct l; [congruence |]. rewrite len_cons.
  change 0 with (inject_Z 0). rewrite <- Zlt_Qlt. pose proof (len_nonneg l). lia.
Qed.

Lemma mean_lower (lo : Q) (l : list Q) :
  l <> [] -> List.Forall (fun q => lo <= q) l -> lo <= mean l.
Proof.
  intros Hne Hall. pose proof (Qsum_lower lo l Hall).
  apply Qle_shift_div_l; [now apply len_positive | lra].
Qed.

Lemma mean_upper (hi : Q) (l : list Q) :
  l <> [] -> List.Forall (fun q => q <= hi) l -> mean l <= hi.
Proof.
  intros Hne Hall. pose proof (Qsum_upper hi l Hall).
  apply Qle_shift_div_r; [now apply len_positive | lra].
Qed.

Lemma pyint_floor (q : Q) : 0 <= q -> pyint (Fin q) = Some (Qfloor q).
Proof.
  intros Hq. destruct q as [n d]. unfold pyint, Qfloor; simpl. f_equal.
  apply Z.quot_div_nonneg; [| lia].
  unfold Qle in Hq; simpl in Hq. lia.
Qed.

Lemma clamped_alpha_bounds (alpha : pyfloat) :
  0.000001 <= clamped_alpha alpha <= 1 - 0.000001.
Proof. apply clamp_spec_bounds. lra. Qed.

(** The tail never exceeds the sample: [1 <= k <= n]. *)
Lemma tail_size_bounds (n : Z) (alpha : pyfloat) :
  (1 <= n)%Z -> (1 <= tail_size n alpha <= n)%Z.
Proof.
  intros Hn. unfold tail_size.
  pose proof (clamped_alpha_bounds alpha) as [Hlo Hhi].
  set (p := inject_Z n * (1 - clamped_alpha alpha)).
  assert (Hn' : 1 <= inject_Z n) by (change 1 with (inject_Z 1); now rewrite <- Zle_Qle).
  assert (Hp : p < inject_Z n) by (unfold p; nra).
  pose proof (Qfloor_le p) as Hf.
  assert (Hlt : (Qfloor p < n)%Z) by (rewrite Zlt_Qlt; lra).
  lia.
Qed.

End TailMean.

(** Two descending arrangements of the same samples agree position by
    position, up to the representation of each rational. *)
Lemma descending_map_Qred (l : list Q) : descending l -> descending (map Qred l).
Proof.
  unfold descending. induction 1 as [| x t Hs IH Hhd]; simpl; constructor; auto.
  destruct Hhd as [| y t' Hxy]; simpl; constructor.
  rewrite !Qred_correct. exact Hxy.
Qed.

Lemma descending_unique (l1 l2 : list Q) :
  descending l1 -> descending l2 -> Permutation l1 l2 ->
  map Qred l1 = map Qred l2.
Proof.
  intros H1 H2 Hp.
  assert (Htr : Transitive (fun a b : Q => b <= a)) by (intros a b c ? ?; lra).
  apply (Sorted_unique_strong (fun a b : Q => b <= a)).
  - intros x1 x2 Hx1 Hx2 Hle Hge.
    apply list_elem_of_In, in_map_iff in Hx1 as (a & <- & _).
    apply list_elem_of_In, in_map_iff in Hx2 as (b & <- & _).
    apply Qred_complete. rewrite !Qred_correct in Hle, Hge. lra.
  - now apply descending_map_Qred.
  - now apply descending_map_Qred.
  - now apply Permutation_map.
Qed.

Lemma top_sum_unique (k : nat) (l1 l2 : list Q) :
  descending l1 -> descending l2 -> Permutation l1 l2 ->
  Qsum (firstn k l1) == Qsum (firstn k l2).
Proof.
  intros H1 H2 Hp.
  rewrite <- (Qsum_Qred (firstn k l1)), <- (Qsum_Qred (firstn k l2)).
  rewrite <- !firstn_map, (descending_unique l1 l2 H1 H2 Hp). reflexivity.
Qed.

(** ** The tail-mean estimator *)

Lemma compute_qcvar_no_finite (samples : list pyfloat) (alpha : pyfloat) :
  finite_values samples = [] -> compute_qcvar samples alpha = Some (Fin 0).
Proof.
  intros H. unfold compute_qcvar. rewrite filter_isfinite, H. reflexivity.
Qed.

Lemma compute_qcvar_eval (samples : list pyfloat) (alpha : pyfloat) :
  finite_values samples <> [] ->
  exists sorted r,
    Permutation sorted (finite_values samples) /\ descending sorted /\
    compute_qcvar samples alpha = Some (Fin r) /\
    r == mean (firstn (Z.to_nat (tail_size (len (finite_values samples)) alpha)) sorted).
Proof.
  intros Hne. unfold compute_qcvar. cbv zeta. rewrite filter_isfinite.
  remember (finite_values samples) as l0 eqn:El.
  destruct l0 as [| q0 qs]; [congruence |].
  cbn [map]. change (Fin q0 :: map Fin qs) with (map Fin (q0 :: qs)).
  set (l := q0 :: qs) in *.
  destruct (sorted_reverse_finite l) as (sorted & Hsr & Hperm & Hdesc).
  exists sorted. rewrite Hsr.
  assert (Hlen : len sorted = len l) by (unfold len; now rewrite (Permutation_length Hperm)).
  assert (Hn : (1 <= len l)%Z).
  { unfold l. rewrite len_cons. pose proof (len_nonneg qs). lia. }
  change (fsub (Fin 1) (Fin 0.000001)) with (Fin (1 - 0.000001)).
  destruct (_clamp_spec 0.000001 (1 - 0.000001) alpha) as (a & -> & Ha).
  fold (clamped_alpha alpha) in Ha.
  pose proof (clamped_alpha_bounds alpha) as [Hlo Hhi].
  replace (len (map Fin sorted)) with (len l)
    by (unfold len in *; now rewrite length_map).
  change (fmul (of_int (len l)) (fsub (Fin 1) (Fin a)))
    with (Fin (inject_Z (len l) * (1 - a))).
  assert (Hn' : 1 <= inject_Z (len l)) by (change 1 with (inject_Z 1); now rewrite <- Zle_Qle).
  rewrite pyint_floor by nra. cbn [mbind option_bind].
  assert (Hk : Z.max 1 (Qfloor (inject_Z (len l) * (1 - a)) + 1) = tail_size (len l) alpha).
  { unfold tail_size. now rewrite Ha. }
  rewrite Hk. pose proof (tail_size_bounds (len l) alpha Hn) as [Hk1 Hk2].
  set (k := tail_size (len l) alpha) in *.
  unfold slice_to. destruct (k <? 0)%Z eqn:Hneg; [lia |].
  rewrite firstn_map.
  destruct (pysum_finite (firstn (Z.to_nat k) sorted)) as (s & -> & Hs).
  assert (Hlk : len (map Fin (firstn (Z.to_nat k) sorted)) = k).
  { unfold len in *. rewrite length_map, length_firstn. lia. }
  rewrite Hlk. unfold of_int, fdiv.
  assert (Hkpos : 0 < inject_Z k).
  { change 0 with (inject_Z 0). rewrite <- Zlt_Qlt. lia. }
  destruct (Qeq_bool (inject_Z k) 0) eqn:Hz.
  { apply Qeq_bool_iff in Hz. lra. }
  exists (s / inject_Z k). repeat split; auto.
  unfold mean. replace (len (firstn (Z.to_nat k) sorted)) with k.
  - now rewrite Hs.
  - unfold len in *. rewrite length_firstn. lia.
Qed.

(** The value returned on a sample with a finite element, together with the
    arrangement the code sorted the sample into. *)
Lemma compute_qcvar_top (samples : list pyfloat) (alpha : pyfloat) :
  finite_values samples <> [] ->
  exists top r,
    top <> [] /\
    (forall q, List.In q top -> List.In q (finite_values samples)) /\
    compute_qcvar samples alpha = Some (Fin r) /\ r == mean top.
Proof.
  intros Hne.
  destruct (compute_qcvar_eval samples alpha Hne) as (sorted & r & Hp & _ & Hr & Hm).
  assert (Hn : (1 <= len (finite_values samples))%Z).
  { destruct (finite_values samples); [congruence |].
    rewrite len_cons. pose proof (len_nonneg l). lia. }
  pose proof (tail_size_bounds _ alpha Hn) as [Hk _].
  exists (firstn (Z.to_nat (tail_size (len (finite_values samples)) alpha)) sorted), r.
  repeat split; auto.
  - destruct sorted as [| x t].
    + apply Permutation_nil in Hp. congruence.
    + destruct (Z.to_nat _) eqn:E; [lia | discriminate].
  - intros q Hq. apply (Permutation_in _ Hp).
    rewrite <- (firstn_skipn (Z.to_nat (tail_size (len (finite_values samples)) alpha)) sorted).
    apply in_or_app. now left.
Qed.

Lemma compute_qcvar_total (samples : list pyfloat) (alpha : pyfloat) :
  exists r, compute_qcvar samples alpha = Some (Fin r).
Proof.
  destruct (finite_values samples) as [| q qs] eqn:E.
  - exists 0. now apply compute_qcvar_no_finite.
  - destruct (compute_qcvar_top samples alpha) as (_ & r & _ & _ & Hr & _); [congruence |].
    now exists r.
Qed.

Lemma compute_qcvar_lower (lo : Q) (samples : list pyfloat) (alpha : pyfloat) :
  lo <= 0 -> List.Forall (fun q => lo <= q) (finite_values samples) ->
  exists r, compute_qcvar samples alpha = Some (Fin r) /\ lo <= r.
Proof.
  intros Hlo Hall. destruct (finite_values samples) as [| q qs] eqn:E.
  - exists 0. split; [now apply compute_qcvar_no_finite | exact Hlo].
  - destruct (compute_qcvar_top samples alpha) as (top & r & Hne & Hin & Hr & Hm);
      [congruence |].
    exists r. split; [exact Hr |]. rewrite Hm. apply mean_lower; [exact Hne |].
    rewrite E in Hin. rewrite List.Forall_forall in Hall |- *. auto.
Qed.

Lemma compute_qcvar_upper (hi : Q) (samples : list pyfloat) (alpha : pyfloat) :
  0 <= hi -> List.Forall (fun q => q <= hi) (finite_values samples) ->
  exists r, compute_qcvar samples alpha = Some (Fin r) /\ r <= hi.
Proof.
  intros Hhi Hall. destruct (finite_values samples) as [| q qs] eqn:E.
  - exists 0. split; [now apply compute_qcvar_no_finite | exact Hhi].
  - destruct (compute_qcvar_top samples alpha) as (top & r & Hne & Hin & Hr & Hm);
      [congruence |].
    exists r. split; [exact Hr |]. rewrite Hm. apply mean_upper; [exact Hne |].
    rewrite E in Hin. rewrite List.Forall_forall in Hall |- *. auto.
Qed.


(** The sample of the test-suite: of [0.1, 0.2, 0.8, 0.5] the top three at
    [alpha = 0.5] are [0.8, 0.5, 0.2]. *)
Example compute_qcvar_test_sample :
  exists r, compute_qcvar [Fin 0.1; Fin 0.2; Fin 0.8; NaN; PInf; Fin 0.5] (Fin 0.5)
            = Some (Fin r) /\ r == (0.8 + 0.5 + 0.2) / 3.
Proof. eexists. split; [vm_compute; reflexivity | reflexivity]. Qed.

(** C8, the claim as stated fails: the single sample [-1.0] has tail mean
    [-1.0], which is negative. *)
Lemma compute_qcvar_negative_sample :
  ~ qcvar_nonnegative [Fin (-1)] (Fin 0.95).
Proof.
  intros (r & Hr & Hpos). vm_compute in Hr. injection Hr as <-.
  vm_compute in Hpos. apply Hpos. reflexivity.
Qed.

(** C8, amended: when every finite sample is non-negative, the value returned
    by [compute_qcvar] is non-negative, for every [alpha]. *)
Theorem compute_qcvar_nonnegative (samples : list pyfloat) (alpha : pyfloat) :
  List.Forall (fun q => 0 <= q) (finite_values samples) ->
  qcvar_nonnegative samples alpha.
Proof. intros Hall. apply compute_qcvar_lower; [lra | exact Hall]. Qed.

Lemma compute_qcvar_nonnegative_witness :
  qcvar_nonnegative [Fin 0.2; NaN; Fin 0.7; NInf] (Fin 0.5).
Proof.
  apply compute_qcvar_nonnegative. simpl.
  repeat constructor; vm_compute; discriminate.
Defined.

(** ** Bounded histories *)

Section Trim.

Context {A : Type}.
Implicit Types (l : list A) (m : Z).

Lemma trim_newest m l : (0 <= m)%Z -> trim m l = Some (newest m l).
Proof.
  intros Hm. unfold newest. induction l as [| x t IH]; simpl trim.
  - destruct (0 >? m)%Z eqn:E; [lia | reflexivity].
  - destruct (len (x :: t) >? m)%Z eqn:E; rewrite len_cons in E; unfold len in E.
    + rewrite IH. f_equal. simpl length.
      replace (S (length t) - Z.to_nat m)%nat with (S (length t - Z.to_nat m)) by lia.
      reflexivity.
    + simpl length.
      replace (S (length t) - Z.to_nat m)%nat with 0%nat by lia. reflexivity.
Qed.

Lemma newest_length m l :
  length (newest m l) = Nat.min (length l) (Z.to_nat m).
Proof. unfold newest. rewrite length_skipn. lia. Qed.

Lemma newest_len_le m l : (1 <= m)%Z -> (len (newest m l) <= m)%Z.
Proof. intros Hm. unfold len. rewrite newest_length. lia. Qed.

Lemma newest_all m l : (len l <= m)%Z -> newest m l = l.
Proof.
  intros H. unfold newest, len in *.
  replace (length l - Z.to_nat m)%nat with 0%nat by lia. reflexivity.
Qed.

Lemma newest_In m l x : List.In x (newest m l) -> List.In x l.
Proof.
  unfold newest. intros H.
  rewrite <- (firstn_skipn (length l - Z.to_nat m) l). apply in_or_app. now right.
Qed.

Lemma newest_Forall (P : A -> Prop) m l :
  List.Forall P l -> List.Forall P (newest m l).
Proof.
  rewrite !List.Forall_forall. intros H x Hx. eapply H, newest_In, Hx.
Qed.

(** Evicting in two rounds is evicting once. *)
Lemma newest_app_newest m l1 l2 :
  newest m (newest m l1 ++ l2) = newest m (l1 ++ l2).
Proof.
  unfold newest. rewrite !length_app, length_skipn.
  set (n1 := length l1). set (n2 := length l2). set (k := Z.to_nat m).
  destruct (Nat.le_gt_cases n1 k) as [Hle | Hgt].
  - replace (n1 - k)%nat with 0%nat by lia. simpl skipn.
    now rewrite Nat.sub_0_r.
  - rewrite !skipn_app, length_skipn, skipn_skipn. fold n1.
    f_equal; f_equal; lia.
Qed.

Lemma last_newest_snoc m l x : (1 <= m)%Z -> last (newest m (l ++ [x])) = Some x.
Proof.
  intros Hm. unfold newest. rewrite length_app, skipn_app. simpl length.
  replace (length l + 1 - Z.to_nat m - length l)%nat with 0%nat by lia.
  simpl skipn. apply last_snoc.
Qed.

End Trim.

(** ** One [validate_system] call *)

Lemma _clamp_unit_float (x : pyfloat) : unit_float (_clamp x _DEF_MIN _DEF_MAX).
Proof. apply _clamp_unit. Qed.

Lemma validate_system_post (psi theta cvar : pyfloat) (weights : option OmegaWeights.t)
    (self : OmegaValidator.t) (σ : heap) :
  (1 <= max_history self)%Z ->
  exists omega q,
    compute_omega psi theta cvar weights = Some omega /\
    unit_float omega /\
    let safe_cvar := _clamp cvar _DEF_MIN _DEF_MAX in
    let r := fresh (dom σ) in
    let self' := after_validate self r omega safe_cvar in
    compute_qcvar (_cvar_history self') (qcvar_alpha self) = Some (Fin q) /\
    validate_system psi theta cvar weights self σ =
      Some (mkValidation omega (Fin q)
              (barrier_production_ready
                 (validate_governance_barrier omega (Fin q)
                    (omega_threshold self) (qcvar_limit self)))
              (len (_history self')),
            self',
            <[r := make_record (_clamp psi _DEF_MIN _DEF_MAX)
                     (_clamp theta _DEF_MIN _DEF_MAX) safe_cvar omega]> σ).
Proof.
  intros Hm.
  destruct (compute_omega_bounded psi theta cvar weights) as (o & Ho & Hob).
  destruct (compute_qcvar_total
    (newest (max_history self) (_cvar_history self ++ [_clamp cvar _DEF_MIN _DEF_MAX]))
    (qcvar_alpha self)) as (q & Hq).
  exists (Fin o), q. split; [exact Ho |]. split; [now exists o |].
  cbv zeta. split; [exact Hq |].
  unfold validate_system. rewrite Ho. cbn [mbind option_bind]. unfold alloc.
  unfold _trim_history. cbn [max_history _history _omega_history _cvar_history with_histories].
  rewrite !trim_newest by lia. cbn [mbind option_bind].
  unfold _compute_qcvar_history.
  cbn [max_history _history _omega_history _cvar_history with_histories
       qcvar_alpha omega_threshold qcvar_limit].
  rewrite Hq. reflexivity.
Qed.

Lemma after_validate_valid (self : OmegaValidator.t) (r : loc) (omega safe_cvar : pyfloat) :
  valid self -> unit_float omega -> unit_float safe_cvar ->
  valid (after_validate self r omega safe_cvar).
Proof.
  intros [Hmax Hmin Hlo Hlc Hb Ho Hc] Hom Hcv.
  constructor; cbn [after_validate with_histories max_history min_samples
                    _history _omega_history _cvar_history]; auto.
  - rewrite !newest_length, !length_app, Hlo. reflexivity.
  - rewrite !newest_length, !length_app, Hlc. reflexivity.
  - now apply newest_len_le.
  - apply newest_Forall, Forall_app. split; [exact Ho | now constructor].
  - apply newest_Forall, Forall_app. split; [exact Hc | now constructor].
Qed.

Lemma __init___valid (ot ql qa : pyfloat) (mh ms : Z) : valid (__init__ ot ql qa mh ms).
Proof. constructor; simpl; try constructor; try lia; unfold len; simpl; lia. Qed.

Lemma reset_valid (self : OmegaValidator.t) : valid self -> valid (reset self).
Proof.
  intros [Hmax Hmin _ _ _ _ _].
  constructor; simpl; try constructor; auto; unfold len; simpl; lia.
Qed.

Lemma reachable_valid (self : OmegaValidator.t) (σ : heap) :
  reachable self σ -> valid self.
Proof.
  induction 1 as [ot ql qa mh ms σ
                 | self self' σ σ' psi theta cvar w res _ IH Hstep
                 | | self σ _ IH | ]; auto.
  - apply __init___valid.
  - destruct (validate_system_post psi theta cvar w self σ (valid_max _ IH))
      as (omega & q & _ & Hom & _ & Heq).
    rewrite Heq in Hstep. injection Hstep as _ <- _.
    apply after_validate_valid; auto using _clamp_unit_float.
  - now apply reset_valid.
Qed.

(** ** The heap *)

Section Heap.

Implicit Types (σ : gmap nat (gmap string pyfloat)) (ls : list nat).

Lemma fresh_unused σ : σ !! fresh (dom σ) = None.
Proof. apply not_elem_of_dom, is_fresh. Qed.

Lemma insert_fresh_other σ l (d : gmap string pyfloat) :
  is_Some (σ !! l) -> <[fresh (dom σ) := d]> σ !! l = σ !! l.
Proof.
  intros [x Hx]. apply lookup_insert_ne. intros E.
  rewrite <- E, fresh_unused in Hx. discriminate.
Qed.

Lemma contents_ext σ σ' ls :
  (forall l, List.In l ls -> σ' !! l = σ !! l) -> contents σ' ls = contents σ ls.
Proof. intros H. apply map_ext_in. exact H. Qed.

Lemma contents_newest σ ls (m : Z) :
  contents σ (newest m ls) = newest m (contents σ ls).
Proof. unfold contents, newest. now rewrite skipn_map, length_map. Qed.

(** The copy made by [get_validation_summary]: new dictionaries, none of
    which existed before, holding the items of the stored ones; dictionaries
    that existed are left as they were. *)
Lemma copy_entries_post ls σ :
  List.Forall (fun l => is_Some (σ !! l)) ls ->
  exists ls' σ',
    copy_entries ls σ = Some (ls', σ') /\
    contents σ' ls' = contents σ ls /\
    (forall l, is_Some (σ !! l) -> σ' !! l = σ !! l) /\
    List.Forall (fun l => σ !! l = None) ls'.
Proof.
  revert σ. induction ls as [| entry rest IH]; intros σ Hown.
  - exists [], σ. repeat split; auto.
  - apply Forall_cons in Hown as [[d Hd] Hrest]. simpl copy_entries.
    rewrite Hd. cbn [mbind option_bind]. unfold alloc.
    set (l := fresh (dom σ)). set (σ1 := <[l := d]> σ).
    assert (Hkeep : forall l0, is_Some (σ !! l0) -> σ1 !! l0 = σ !! l0)
      by (intros; now apply insert_fresh_other).
    assert (Hrest1 : List.Forall (fun l0 => is_Some (σ1 !! l0)) rest).
    { eapply List.Forall_impl; [| exact Hrest]. intros l0 H0. simpl.
      now rewrite Hkeep. }
    destruct (IH σ1 Hrest1) as (ls' & σ' & Hcopy & Hcont & Hpres & Hnew).
    rewrite Hcopy. cbn [mbind option_bind].
    assert (Hl : σ1 !! l = Some d) by apply lookup_insert_eq.
    exists (l :: ls'), σ'. split; [reflexivity |]. split; [| split].
    + unfold contents in *. simpl. rewrite Hcont. f_equal.
      * rewrite Hpres by (rewrite Hl; eauto). congruence.
      * apply map_ext_in. intros l0 H0. apply Hkeep.
        rewrite List.Forall_forall in Hrest. auto.
    + intros l0 H0. rewrite Hpres by (rewrite Hkeep; auto). auto.
    + constructor; [apply fresh_unused |].
      eapply List.Forall_impl; [| exact Hnew]. intros l0 H0. simpl in H0.
      unfold σ1 in H0. apply lookup_insert_None in H0. tauto.
Qed.

End Heap.

(** ** Snapshots *)

Lemma finite_values_unit (l : list pyfloat) :
  List.Forall unit_float l -> List.Forall (fun q => 0 <= q <= 1) (finite_values l).
Proof.
  induction 1 as [| x t (q & -> & Hq) _ IH]; simpl; constructor; auto.
Qed.

Lemma compute_qcvar_unit (l : list pyfloat) (alpha : pyfloat) :
  List.Forall unit_float l ->
  exists q, compute_qcvar l alpha = Some (Fin q) /\ 0 <= q <= 1.
Proof.
  intros Hall. apply finite_values_unit in Hall.
  destruct (compute_qcvar_lower 0 l alpha) as (q & Hq & Hlo); [lra | |].
  { eapply List.Forall_impl; [| exact Hall]. simpl. intros; lra. }
  destruct (compute_qcvar_upper 1 l alpha) as (q' & Hq' & Hhi); [lra | |].
  { eapply List.Forall_impl; [| exact Hall]. simpl. intros; lra. }
  exists q. split; [exact Hq |]. rewrite Hq in Hq'. injection Hq' as <-. lra.
Qed.

Lemma guarded_qcvar (self : OmegaValidator.t) :
  match _cvar_history self with
  | [] => Some (Fin 0)
  | _ :: _ => _compute_qcvar_history self
  end = compute_qcvar (_cvar_history self) (qcvar_alpha self).
Proof.
  unfold _compute_qcvar_history. destruct (_cvar_history self); reflexivity.
Qed.

Lemma guarded_latest (l : list pyfloat) :
  match l with
  | [] => Some (Fin 0)
  | _ :: _ => last_item l
  end = Some (default (Fin 0) (last l)).
Proof.
  destruct l as [| x t]; [reflexivity |]. unfold last_item.
  destruct (last (x :: t)) eqn:E; [reflexivity |].
  apply last_None in E. discriminate.
Qed.

Lemma get_system_health_post (self : OmegaValidator.t) :
  exists q,
    compute_qcvar (_cvar_history self) (qcvar_alpha self) = Some (Fin q) /\
    let latest_omega := default (Fin 0) (last (_omega_history self)) in
    get_system_health self =
      Some (mkHealth latest_omega (Fin q)
              (if (len (_history self) >=? min_samples self)%Z
               then barrier_production_ready
                      (validate_governance_barrier latest_omega (Fin q)
                         (omega_threshold self) (qcvar_limit self))
               else false)
              (len (_history self))).
Proof.
  destruct (compute_qcvar_total (_cvar_history self) (qcvar_alpha self)) as (q & Hq).
  exists q. split; [exact Hq |]. cbv zeta. unfold get_system_health.
  rewrite guarded_qcvar, Hq, guarded_latest. reflexivity.
Qed.

Lemma last_map {A B : Type} (f : A -> B) (l : list A) :
  last (map f l) = option_map f (last l).
Proof.
  induction l as [| x [| y t] IH]; try reflexivity. exact IH.
Qed.

Lemma get_validation_summary_post (self : OmegaValidator.t) (σ : heap) :
  owns self σ ->
  exists s σ',
    get_validation_summary self σ = Some (s, σ') /\
    contents σ' (history s) = contents σ (_history self) /\
    σ' !! latest s = match last (_history self) with
                     | Some l => σ !! l
                     | None => Some ∅
                     end /\
    (forall l, is_Some (σ !! l) -> σ' !! l = σ !! l) /\
    List.Forall (fun l => σ !! l = None) (history s) /\
    σ !! latest s = None /\
    compute_qcvar (_cvar_history self) (qcvar_alpha self) = Some (s_qcvar s) /\
    s_omega_threshold s = omega_threshold self /\
    s_qcvar_limit s = qcvar_limit self.
Proof.
  intros Hown. unfold get_validation_summary.
  destruct (copy_entries_post (_history self) σ Hown)
    as (ls' & σ1 & Hcopy & Hcont & Hpres & Hnew).
  destruct (compute_qcvar_total (_cvar_history self) (qcvar_alpha self)) as (q & Hq).
  rewrite Hcopy. cbn [mbind option_bind]. rewrite guarded_qcvar, Hq.
  assert (Hlast : last (contents σ1 ls') = last (contents σ (_history self)))
    by now rewrite Hcont.
  unfold contents in Hlast. rewrite !last_map in Hlast.
  destruct ls' as [| l0 rest] eqn:Els.
  - destruct (_history self) as [| h0 hs] eqn:Eh; [| discriminate Hcont].
    simpl in Hcopy. injection Hcopy as <-.
    cbn [mbind option_bind alloc]. eexists _, _. split; [reflexivity |].
    cbn [history latest s_qcvar s_omega_threshold s_qcvar_limit last].
    repeat split; auto.
    + apply lookup_insert_eq.
    + intros l Hl. now apply insert_fresh_other.
    + apply fresh_unused.
  - unfold last_item.
    destruct (last (l0 :: rest)) as [ll |] eqn:El; [| apply last_None in El; discriminate].
    cbn [mbind option_bind]. eexists _, _. split; [reflexivity |].
    cbn [history latest s_qcvar s_omega_threshold s_qcvar_limit].
    repeat split; auto.
    + destruct (last (_history self)) as [hl |]; simpl in Hlast;
        [now injection Hlast | discriminate].
    + apply last_Some_elem_of, list_elem_of_In in El.
      rewrite List.Forall_forall in Hnew. auto.
Qed.

(** ** The validator owns its records *)

Lemma after_validate_owns (self : OmegaValidator.t) (σ : heap)
    (omega safe_cvar : pyfloat) (d : pydict) :
  owns self σ ->
  owns (after_validate self (fresh (dom σ)) omega safe_cvar) (<[fresh (dom σ) := d]> σ).
Proof.
  unfold owns. intros Hown. cbn [after_validate with_histories _history].
  apply newest_Forall, Forall_app. split.
  - eapply List.Forall_impl; [| exact Hown]. intros l Hl. simpl.
    now rewrite insert_fresh_other.
  - constructor; [| constructor]. rewrite lookup_insert_eq. eauto.
Qed.

Lemma reachable_owns (self : OmegaValidator.t) (σ : heap) :
  reachable self σ -> owns self σ.
Proof.
  induction 1 as [ot ql qa mh ms σ
                 | self self' σ σ' psi theta cvar w res Hr IH Hstep
                 | self σ σ' s Hr IH Hsum
                 | self σ _ IH
                 | self σ l d _ IH Hl ].
  - constructor.
  - destruct (validate_system_post psi theta cvar w self σ
                (valid_max _ (reachable_valid _ _ Hr)))
      as (omega & q & _ & _ & _ & Heq).
    rewrite Heq in Hstep. injection Hstep as _ <- <-.
    now apply after_validate_owns.
  - destruct (get_validation_summary_post self σ IH)
      as (s' & σ1 & Heq & _ & _ & Hpres & _).
    rewrite Heq in Hsum. injection Hsum as _ <-.
    unfold owns in *. eapply List.Forall_impl; [| exact IH].
    intros l Hl. simpl. now rewrite Hpres.
  - constructor.
  - unfold owns in *. rewrite List.Forall_forall in IH |- *.
    intros l0 H0. rewrite lookup_insert_ne; [auto |]. intros ->. contradiction.
Qed.

(** ** System health *)

(** C1: in every state of a validator, [get_system_health] returns
    [latest_omega], the most recently recorded omega ([0.0] when none is
    recorded); [qcvar], computed over the current cvar history ([0.0] when it
    is empty); [production_ready], the verdict of the governance barrier on
    these two, forced to [false] whenever [sample_count < min_samples]; and
    [sample_count], the number of stored records.  Right after a
    [validate_system] call, [latest_omega] and [qcvar] are the values that
    call returned.  After [reset] it reports [sample_count = 0] and
    [production_ready = false]. *)
Theorem get_system_health_spec (self : OmegaValidator.t) (σ : heap) :
  reachable self σ ->
  (exists h,
     get_system_health self = Some h /\
     latest_omega h = default (Fin 0) (last (_omega_history self)) /\
     Some (h_qcvar h) = match _cvar_history self with
                        | [] => Some (Fin 0)
                        | _ :: _ => compute_qcvar (_cvar_history self) (qcvar_alpha self)
                        end /\
     sample_count h = len (_history self) /\
     h_production_ready h =
       (if (sample_count h <? min_samples self)%Z then false
        else barrier_production_ready
               (validate_governance_barrier (latest_omega h) (h_qcvar h)
                  (omega_threshold self) (qcvar_limit self)))) /\
  (forall (psi theta cvar : pyfloat) (weights : option OmegaWeights.t),
     exists res self' σ' h,
       validate_system psi theta cvar weights self σ = Some (res, self', σ') /\
       get_system_health self' = Some h /\
       latest_omega h = v_omega res /\ h_qcvar h = v_qcvar res) /\
  (exists h,
     get_system_health (reset self) = Some h /\
     sample_count h = 0%Z /\ h_production_ready h = false /\
     latest_omega h = Fin 0 /\ h_qcvar h = Fin 0).
Proof.
  intros Hr. pose proof (reachable_valid _ _ Hr) as Hv. split; [| split].
  - destruct (get_system_health_post self) as (q & Hq & Hh). cbv zeta in Hh.
    eexists. split; [exact Hh |].
    cbn [latest_omega h_qcvar sample_count h_production_ready].
    repeat split.
    + rewrite <- Hq. now destruct (_cvar_history self).
    + rewrite Z.geb_leb, Z.ltb_antisym. now destruct (_ <=? _)%Z.
  - intros psi theta cvar weights.
    destruct (validate_system_post psi theta cvar weights self σ (valid_max _ Hv))
      as (omega & q & _ & _ & Hq & Heq). cbv zeta in Hq, Heq.
    destruct (get_system_health_post
                (after_validate self (fresh (dom σ)) omega (_clamp cvar _DEF_MIN _DEF_MAX)))
      as (q' & Hq' & Hh). cbv zeta in Hh.
    change (qcvar_alpha (after_validate _ _ _ _)) with (qcvar_alpha self) in Hq'.
    rewrite Hq in Hq'. injection Hq' as <-.
    eexists _, _, _, _. split; [exact Heq |]. split; [exact Hh |].
    cbn [latest_omega h_qcvar v_omega v_qcvar after_validate with_histories
         _omega_history].
    split; [| reflexivity].
    now rewrite last_newest_snoc by exact (valid_max _ Hv).
  - destruct (get_system_health_post (reset self)) as (q & Hq & Hh). cbv zeta in Hh.
    simpl in Hq. injection Hq as <-.
    eexists. split; [exact Hh |].
    cbn [latest_omega h_qcvar sample_count h_production_ready reset with_histories
         _history _omega_history min_samples]. repeat split.
    destruct (_ >=? _)%Z eqn:E; [| reflexivity].
    pose proof (valid_min _ Hv). unfold len in E. simpl in E.
    rewrite Z.geb_leb in E. apply Z.leb_le in E. lia.
Qed.

(** ** Sequences of calls *)

Lemma record_of_eq (c : call) (omega : pyfloat) :
  compute_omega (c_psi c) (c_theta c) (c_cvar c) (c_weights c) = Some omega ->
  record_of c = Some (make_record (_clamp (c_psi c) _DEF_MIN _DEF_MAX)
                        (_clamp (c_theta c) _DEF_MIN _DEF_MAX)
                        (_clamp (c_cvar c) _DEF_MIN _DEF_MAX) omega).
Proof. intros H. unfold record_of, omega_of. now rewrite H. Qed.

Lemma contents_after_insert (σ : heap) (h : list loc) (d : pydict) :
  List.Forall (fun l => is_Some (σ !! l)) h ->
  contents (<[fresh (dom σ) := d]> σ) (h ++ [fresh (dom σ)]) = contents σ h ++ [Some d].
Proof.
  intros Hown. unfold contents. rewrite map_app. simpl. f_equal.
  - apply map_ext_in. intros l Hl. apply insert_fresh_other.
    rewrite List.Forall_forall in Hown. auto.
  - now rewrite lookup_insert_eq.
Qed.

Lemma validate_all_post (calls : list call) (self : OmegaValidator.t) (σ : heap) :
  valid self -> owns self σ ->
  exists self' σ',
    validate_all calls self σ = Some (self', σ') /\
    valid self' /\ owns self' σ' /\
    max_history self' = max_history self /\
    contents σ' (_history self') =
      newest (max_history self) (contents σ (_history self) ++ map record_of calls) /\
    map Some (_omega_history self') =
      newest (max_history self) (map Some (_omega_history self) ++ map omega_of calls) /\
    _cvar_history self' =
      newest (max_history self)
        (_cvar_history self ++ map (fun c => _clamp (c_cvar c) _DEF_MIN _DEF_MAX) calls).
Proof.
  revert self σ. induction calls as [| c rest IH]; intros self σ Hv Hown.
  - exists self, σ. cbn [validate_all map]. rewrite !app_nil_r.
    pose proof (valid_bound _ Hv) as Hb. unfold len in Hb.
    split; [reflexivity |]. split; [exact Hv |]. split; [exact Hown |].
    split; [reflexivity |].
    repeat split; rewrite newest_all; auto; unfold len, contents;
      rewrite ?length_map, ?(valid_len_omega _ Hv), ?(valid_len_cvar _ Hv); exact Hb.
  - destruct (validate_system_post (c_psi c) (c_theta c) (c_cvar c) (c_weights c) self σ
                (valid_max _ Hv)) as (omega & q & Hom & Hunit & _ & Heq).
    cbv zeta in Heq. simpl validate_all. rewrite Heq. cbn [mbind option_bind].
    set (r := fresh (dom σ)) in *.
    set (d := make_record _ _ _ omega) in *.
    set (self1 := after_validate self r omega _) in *.
    assert (Hv1 : valid self1)
      by (apply after_validate_valid; auto using _clamp_unit_float).
    assert (Hown1 : owns self1 (<[r := d]> σ)) by now apply after_validate_owns.
    destruct (IH self1 _ Hv1 Hown1) as (self' & σ' & Hall & Hv' & Hown' & Hm & Hc & Ho & Hcv).
    exists self', σ'. split; [exact Hall |]. split; [exact Hv' |]. split; [exact Hown' |].
    change (max_history self1) with (max_history self) in *.
    split; [exact Hm |]. split; [| split].
    + rewrite Hc. cbn [self1 after_validate with_histories _history].
      rewrite contents_newest. unfold r, d. rewrite contents_after_insert by exact Hown.
      rewrite newest_app_newest, <- app_assoc. simpl.
      now rewrite (record_of_eq c omega Hom).
    + rewrite Ho. cbn [self1 after_validate with_histories _omega_history].
      unfold newest at 2. rewrite <- skipn_map, <- (length_map Some).
      fold (newest (max_history self) (map Some (_omega_history self ++ [omega]))).
      rewrite newest_app_newest, map_app, <- app_assoc. simpl.
      unfold omega_of. now rewrite Hom.
    + rewrite Hcv. cbn [self1 after_validate with_histories _cvar_history].
      rewrite newest_app_newest, <- app_assoc. reflexivity.
Qed.

Lemma validate_all_reachable (calls : list call) (self self' : OmegaValidator.t)
    (σ σ' : heap) :
  reachable self σ -> validate_all calls self σ = Some (self', σ') -> reachable self' σ'.
Proof.
  revert self σ. induction calls as [| c rest IH]; intros self σ Hr Hall; simpl in Hall.
  - now injection Hall as <- <-.
  - destruct (validate_system _ _ _ _ self σ) as [[[res self1] σ1] |] eqn:E;
      [| discriminate].
    cbn [mbind option_bind] in Hall. eapply IH; [| exact Hall].
    eapply reach_validate; eauto.
Qed.

Lemma demo_state_reachable : reachable (fst demo_state) (snd demo_state).
Proof.
  apply (validate_all_reachable [demo_call; demo_call] demo_init _ ∅).
  - apply reach_init.
  - vm_compute. reflexivity.
Qed.

Lemma get_system_health_spec_witness :
  exists h, get_system_health (fst demo_state) = Some h /\
            sample_count h = 2%Z /\ h_production_ready h = false /\
            barrier_production_ready
              (validate_governance_barrier (latest_omega h) (h_qcvar h)
                 (omega_threshold (fst demo_state)) (qcvar_limit (fst demo_state)))
            = true.
Proof.
  destruct (get_system_health_spec (fst demo_state) (snd demo_state)
              demo_state_reachable) as [(h & Hh & Hlo & Hq & Hc & Hp) _].
  exists h. split; [exact Hh |].
  assert (Hc' : sample_count h = 2%Z) by (rewrite Hc; reflexivity).
  split; [exact Hc' |]. split.
  - rewrite Hp, Hc'. reflexivity.
  - apply (f_equal (default (Fin 0))) in Hq. simpl default in Hq at 1.
    rewrite Hq, Hlo. vm_compute. reflexivity.
Defined.

(** ** Bounded, first-in first-out histories *)

(** C2: in every state of a validator the three histories have the same
    length, at most [max_history]; every sequence of [validate_system] calls
    succeeds and leaves in each history the newest [max_history] of the old
    entries followed by the new ones, the oldest having been evicted first;
    in particular, a validator constructed with [max_history = 2] has, after
    three calls, a summary history of length 2 holding the records of the
    second and the third call, in this order. *)
Theorem history_bounded_fifo :
  (forall (self : OmegaValidator.t) (σ : heap),
     reachable self σ ->
     length (_omega_history self) = length (_history self) /\
     length (_cvar_history self) = length (_history self) /\
     (len (_history self) <= max_history self)%Z) /\
  (forall (self : OmegaValidator.t) (σ : heap) (calls : list call),
     reachable self σ ->
     exists self' σ',
       validate_all calls self σ = Some (self', σ') /\
       reachable self' σ' /\
       max_history self' = max_history self /\
       contents σ' (_history self') =
         newest (max_history self) (contents σ (_history self) ++ map record_of calls) /\
       map Some (_omega_history self') =
         newest (max_history self) (map Some (_omega_history self) ++ map omega_of calls) /\
       _cvar_history self' =
         newest (max_history self)
           (_cvar_history self
              ++ map (fun c => _clamp (c_cvar c) _DEF_MIN _DEF_MAX) calls)) /\
  (forall (ot ql qa : pyfloat) (ms : Z) (σ : heap) (c1 c2 c3 : call),
     exists self' σ' s σ'' r2 r3,
       validate_all [c1; c2; c3] (__init__ ot ql qa 2 ms) σ = Some (self', σ') /\
       get_validation_summary self' σ' = Some (s, σ'') /\
       length (history s) = 2%nat /\
       record_of c2 = Some r2 /\ record_of c3 = Some r3 /\
       contents σ'' (history s) = [Some r2; Some r3]).
Proof.
  split; [| split].
  - intros self σ Hr. pose proof (reachable_valid _ _ Hr) as Hv.
    split; [apply Hv |]. split; apply Hv.
  - intros self σ calls Hr.
    destruct (validate_all_post calls self σ (reachable_valid _ _ Hr) (reachable_owns _ _ Hr))
      as (self' & σ' & Hall & _ & _ & Hm & Hc & Ho & Hcv).
    exists self', σ'. split; [exact Hall |].
    split; [exact (validate_all_reachable _ _ _ _ _ Hr Hall) |]. auto.
  - intros ot ql qa ms σ c1 c2 c3.
    set (self := __init__ ot ql qa 2 ms).
    destruct (validate_all_post [c1; c2; c3] self σ (__init___valid _ _ _ _ _))
      as (self' & σ' & Hall & _ & Hown & _ & Hc & _); [constructor |].
    destruct (get_validation_summary_post self' σ' Hown) as (s & σ'' & Hs & Hcs & _).
    destruct (compute_omega_bounded (c_psi c2) (c_theta c2) (c_cvar c2) (c_weights c2))
      as (o2 & Ho2 & _).
    destruct (compute_omega_bounded (c_psi c3) (c_theta c3) (c_cvar c3) (c_weights c3))
      as (o3 & Ho3 & _).
    rewrite Hc in Hcs. cbn in Hcs.
    rewrite (record_of_eq c2 _ Ho2), (record_of_eq c3 _ Ho3) in Hcs.
    eexists self', σ', s, σ'', _, _. split; [exact Hall |]. split; [exact Hs |].
    split; [| split; [exact (record_of_eq c2 _ Ho2)
                     | split; [exact (record_of_eq c3 _ Ho3) | exact Hcs]]].
    apply (f_equal (@length _)) in Hcs. unfold contents in Hcs.
    now rewrite length_map in Hcs.
Qed.

Example history_bounded_fifo_test_run :
  exists self' σ' s σ'',
    validate_all [mkCall (Fin 0.9) (Fin 0.9) (Fin 0.05) None;
                  mkCall (Fin 0.8) (Fin 0.85) (Fin 0.1) None;
                  mkCall (Fin 0.7) (Fin 0.8) (Fin 0.15) None]
      (__init__ (Fin 0.9) (Fin 0.1) (Fin 0.9) 2 5) ∅ = Some (self', σ') /\
    get_validation_summary self' σ' = Some (s, σ'') /\
    map (fun entry => d ← entry; d !! "cvar") (contents σ'' (history s))
      = [Some (Fin 0.1); Some (Fin 0.15)].
Proof.
  eexists _, _, _, _. split; [vm_compute; reflexivity |].
  split; [vm_compute; reflexivity |]. vm_compute. reflexivity.
Qed.

(** ** The risk estimate of a validator is a number of the unit interval *)

(** C10: in every state of a validator, every stored cvar entry lies in
    [[0, 1]], and so does the [qcvar] returned by [validate_system],
    [get_system_health] and [get_validation_summary], each of which returns
    normally; the standalone [compute_qcvar] has no such bound: on the sample
    [5.0] it returns [5.0]. *)
Theorem validator_qcvar_in_unit_interval (self : OmegaValidator.t) (σ : heap) :
  reachable self σ ->
  List.Forall unit_float (_cvar_history self) /\
  (forall (psi theta cvar : pyfloat) (weights : option OmegaWeights.t),
     exists res self' σ',
       validate_system psi theta cvar weights self σ = Some (res, self', σ') /\
       unit_float (v_qcvar res)) /\
  (exists h, get_system_health self = Some h /\ unit_float (h_qcvar h)) /\
  (exists s σ', get_validation_summary self σ = Some (s, σ') /\ unit_float (s_qcvar s)) /\
  (exists r, compute_qcvar [Fin 5] (Fin 0.9) = Some (Fin r) /\ 1 < r).
Proof.
  intros Hr. pose proof (reachable_valid _ _ Hr) as Hv.
  pose proof (reachable_owns _ _ Hr) as Hown.
  destruct (compute_qcvar_unit _ (qcvar_alpha self) (valid_cvar _ Hv)) as (q0 & Hq0 & Hb0).
  split; [apply Hv |]. split; [| split; [| split]].
  - intros psi theta cvar weights.
    destruct (validate_system_post psi theta cvar weights self σ (valid_max _ Hv))
      as (omega & q & _ & Hom & Hq & Heq). cbv zeta in Hq, Heq.
    eexists _, _, _. split; [exact Heq |]. cbn [v_qcvar].
    pose proof (after_validate_valid self (fresh (dom σ)) omega
                  (_clamp cvar _DEF_MIN _DEF_MAX) Hv Hom (_clamp_unit_float cvar)) as Hv'.
    destruct (compute_qcvar_unit _ (qcvar_alpha self) (valid_cvar _ Hv')) as (q' & Hq' & Hb).
    rewrite Hq in Hq'. injection Hq' as ->. now exists q'.
  - destruct (get_system_health_post self) as (q & Hq & Hh). cbv zeta in Hh.
    eexists. split; [exact Hh |]. cbn [h_qcvar].
    rewrite Hq0 in Hq. injection Hq as <-. now exists q0.
  - destruct (get_validation_summary_post self σ Hown)
      as (s & σ' & Hs & _ & _ & _ & _ & _ & Hq & _).
    exists s, σ'. split; [exact Hs |].
    rewrite Hq0 in Hq. injection Hq as <-. now exists q0.
  - eexists. split; [vm_compute; reflexivity |]. reflexivity.
Qed.

Lemma validator_qcvar_in_unit_interval_witness :
  List.Forall unit_float (_cvar_history (fst demo_state)) /\
  exists h, get_system_health (fst demo_state) = Some h /\ unit_float (h_qcvar h).
Proof.
  destruct (validator_qcvar_in_unit_interval (fst demo_state) (snd demo_state)
              demo_state_reachable) as (Hc & _ & Hh & _).
  split; [exact Hc | exact Hh].
Defined.

(** ** The summary is an independent copy *)

(** C6: the dictionaries returned by [get_validation_summary], those of
    [history] and [latest], are not the ones the validator stores.  Whatever
    the client then does to the returned dictionaries, the records of the
    validator keep their contents, and a later [get_validation_summary]
    returns the values the first call returned; [get_system_health] reads
    the validator's own lists only. *)
Theorem summary_copy_isolation
    (self : OmegaValidator.t) (σ σ' σ'' : heap) (s : Summary) :
  reachable self σ ->
  get_validation_summary self σ = Some (s, σ') ->
  (forall l, ~ List.In l (history s) -> l <> latest s -> σ'' !! l = σ' !! l) ->
  (forall l, List.In l (history s) \/ l = latest s -> ~ List.In l (_history self)) /\
  contents σ' (history s) = contents σ (_history self) /\
  contents σ'' (_history self) = contents σ (_history self) /\
  exists s2 σ3,
    get_validation_summary self σ'' = Some (s2, σ3) /\
    contents σ3 (history s2) = contents σ' (history s) /\
    σ3 !! latest s2 = σ' !! latest s /\
    s_qcvar s2 = s_qcvar s /\
    s_omega_threshold s2 = s_omega_threshold s /\
    s_qcvar_limit s2 = s_qcvar_limit s.
Proof.
  intros Hr Hsum Hmut. pose proof (reachable_owns _ _ Hr) as Hown.
  destruct (get_validation_summary_post self σ Hown)
    as (s0 & σ0 & Heq & Hcont & Hlat & Hpres & Hnew & Hlnew & Hq & Hot & Hql).
  rewrite Hsum in Heq. injection Heq as <- <-.
  unfold owns in Hown. rewrite List.Forall_forall in Hown, Hnew.
  assert (Hsep : forall l, List.In l (history s) \/ l = latest s ->
                           ~ List.In l (_history self)).
  { intros l Hl Hin. destruct (Hown l Hin) as [d Hd].
    destruct Hl as [Hl | ->]; [rewrite (Hnew l Hl) in Hd | rewrite Hlnew in Hd];
      discriminate. }
  assert (Hkeep : forall l, List.In l (_history self) -> σ'' !! l = σ !! l).
  { intros l Hin. rewrite Hmut, Hpres; auto.
    - intros Hl. exact (Hsep l (or_introl Hl) Hin).
    - intros ->. exact (Hsep _ (or_intror eq_refl) Hin). }
  assert (Hown'' : owns self σ'').
  { unfold owns. rewrite List.Forall_forall. intros l Hin. rewrite Hkeep; auto. }
  assert (Hcont'' : contents σ'' (_history self) = contents σ (_history self))
    by now apply contents_ext.
  split; [exact Hsep |]. split; [exact Hcont |]. split; [exact Hcont'' |].
  destruct (get_validation_summary_post self σ'' Hown'')
    as (s2 & σ3 & Heq2 & Hcont2 & Hlat2 & _ & _ & _ & Hq2 & Hot2 & Hql2).
  exists s2, σ3. split; [exact Heq2 |]. split; [congruence |].
  split; [| split; [congruence | split; congruence]].
  rewrite Hlat2, Hlat. destruct (last (_history self)) as [hl |] eqn:El; [| reflexivity].
  apply Hkeep. apply last_Some_elem_of, list_elem_of_In in El. exact El.
Qed.

Lemma summary_copy_isolation_witness :
  exists s σ',
    get_validation_summary (fst demo_state) (snd demo_state) = Some (s, σ') /\
    exists s2 σ3,
      get_validation_summary (fst demo_state)
        (<[latest s := {["omega" := Fin 0]}]> σ') = Some (s2, σ3) /\
      contents σ3 (history s2) = contents σ' (history s).
Proof.
  destruct (get_validation_summary (fst demo_state) (snd demo_state))
    as [[s σ'] |] eqn:E; [| vm_compute in E; discriminate].
  exists s, σ'. split; [reflexivity |].
  destruct (summary_copy_isolation (fst demo_state) (snd demo_state) σ'
              (<[latest s := {["omega" := Fin 0]}]> σ') s demo_state_reachable E)
    as (_ & _ & _ & s2 & σ3 & H2 & Hc & _).
  - intros l _ Hl. apply lookup_insert_ne. congruence.
  - exists s2, σ3. split; assumption.
Defined.

(** * Further properties of the scoring functions *)

(** ** More on the clamp *)

Lemma clamp_spec_monotone (lo hi x y : Q) :
  x <= y -> clamp_spec lo hi (Fin x) <= clamp_spec lo hi (Fin y).
Proof.
  intros Hxy. simpl.
  destruct (Q.min_spec hi x) as [[? ?] | [? ?]];
    destruct (Q.min_spec hi y) as [[? ?] | [? ?]];
    destruct (Q.max_spec lo (Qmin hi x)) as [[? ?] | [? ?]];
    destruct (Q.max_spec lo (Qmin hi y)) as [[? ?] | [? ?]]; lra.
Qed.

Lemma clamp_spec_in_range (lo hi q : Q) :
  lo <= q <= hi -> clamp_spec lo hi (Fin q) == q.
Proof.
  intros Hq. simpl.
  destruct (Q.min_spec hi q) as [[? ?] | [? ?]];
    destruct (Q.max_spec lo (Qmin hi q)) as [[? ?] | [? ?]]; lra.
Qed.

(** Clamping twice is clamping once, whatever the (finite) bounds; a value
    within the bounds is returned as it is; and clamping preserves the order
    of finite values. *)
Theorem _clamp_idempotent_monotone (lo hi : Q) (x : pyfloat) :
  _clamp (_clamp x (Fin lo) (Fin hi)) (Fin lo) (Fin hi) = _clamp x (Fin lo) (Fin hi) /\
  (forall q, x = Fin q -> lo <= q <= hi -> feq (_clamp x (Fin lo) (Fin hi)) x) /\
  (forall q q', x = Fin q -> q <= q' ->
     exists r r', _clamp x (Fin lo) (Fin hi) = Fin r /\
                  _clamp (Fin q') (Fin lo) (Fin hi) = Fin r' /\ r <= r').
Proof.
  split; [| split].
  - destruct x as [v | | |]; unfold _clamp, pymax, pymin, fgt, flt; simpl;
      qcases; simpl; qcases; simpl; qcases; try reflexivity; lra.
  - intros q -> Hq. destruct (_clamp_spec lo hi (Fin q)) as (r & -> & Hr).
    simpl feq. rewrite Hr. now apply clamp_spec_in_range.
  - intros q q' -> Hqq.
    destruct (_clamp_spec lo hi (Fin q)) as (r & -> & Hr).
    destruct (_clamp_spec lo hi (Fin q')) as (r' & -> & Hr').
    exists r, r'. repeat split. rewrite Hr, Hr'. now apply clamp_spec_monotone.
Qed.

(** With inverted bounds ([max_value < min_value]) and with a non-finite
    argument the clamp returns [min_value]. *)
Theorem _clamp_falls_back_to_min (lo hi : Q) (x : pyfloat) :
  hi < lo \/ isfinite x = false ->
  _clamp x (Fin lo) (Fin hi) = Fin lo.
Proof.
  intros [Hinv | Hnf].
  - destruct x as [v | | |]; unfold _clamp, pymax, pymin, fgt, flt; simpl;
      qcases; try reflexivity; lra.
  - destruct x; [discriminate | reflexivity ..].
Qed.

Lemma _clamp_falls_back_to_min_witness :
  _clamp (Fin 0.5) (Fin 1) (Fin 0) = Fin 1 /\ _clamp NaN (Fin 0) (Fin 1) = Fin 0.
Proof.
  split.
  - apply _clamp_falls_back_to_min. left. reflexivity.
  - apply _clamp_falls_back_to_min. right. reflexivity.
Defined.

(** ** More on weight normalization *)

Lemma normalized_above_floor (a b c : Q) :
  0.000000000001 <= a + b + c ->
  OmegaWeights.normalized (OmegaWeights.mk (Fin a) (Fin b) (Fin c))
  = Some (OmegaWeights.mk (Fin (a / (a + b + c))) (Fin (b / (a + b + c)))
            (Fin (c / (a + b + c)))).
Proof.
  intros H. rewrite normalized_finite.
  assert (E : Qltb (a + b + c) 0.000000000001 = false) by (apply Qltb_false; lra).
  now rewrite E.
Qed.






(** ** More on the Omega score *)

Lemma compute_omega_weighted (psi theta cvar : pyfloat) (a b c : Q) :
  0 <= a -> 0 <= b -> 0 <= c -> 0.000000000001 <= a + b + c ->
  exists q,
    compute_omega psi theta cvar (Some (OmegaWeights.mk (Fin a) (Fin b) (Fin c)))
      = Some (Fin q) /\
    q == (clamp01 psi * a + clamp01 theta * b + (1 - clamp01 cvar) * c) / (a + b + c).
Proof.
  intros Ha Hb Hc Hs. unfold compute_omega, weights_or_default, clamp01.
  rewrite normalized_above_floor by exact Hs. cbn [mbind option_bind].
  unfold _DEF_MIN, _DEF_MAX.
  destruct (_clamp_spec 0 1 psi) as (p & -> & Hp).
  destruct (_clamp_spec 0 1 theta) as (th & -> & Hth).
  destruct (_clamp_spec 0 1 cvar) as (cv & -> & Hcv).
  pose proof (clamp_spec_bounds 0 1 psi ltac:(lra)) as Bp.
  pose proof (clamp_spec_bounds 0 1 theta ltac:(lra)) as Bth.
  pose proof (clamp_spec_bounds 0 1 cvar ltac:(lra)) as Bcv.
  cbn [OmegaWeights.psi OmegaWeights.theta OmegaWeights.cvar fmul fadd fsub fneg].
  set (t := a + b + c) in *.
  set (v := p * (a / t) + th * (b / t) + (1 + - cv) * (c / t)).
  assert (Hv : v == (p * a + th * b + (1 - cv) * c) / t) by (unfold v; field; lra).
  assert (Ht : 0 < t) by lra.
  assert (Hrange : 0 <= v <= 1).
  { rewrite Hv. split.
    - apply Qle_shift_div_l; [exact Ht |]. rewrite Qmult_0_l.
      assert (0 <= p * a) by (apply Qmult_le_0_compat; lra).
      assert (0 <= th * b) by (apply Qmult_le_0_compat; lra).
      assert (0 <= (1 - cv) * c) by (apply Qmult_le_0_compat; lra).
      lra.
    - apply Qle_shift_div_r; [exact Ht |]. rewrite Qmult_1_l.
      assert (0 <= (1 - p) * a) by (apply Qmult_le_0_compat; lra).
      assert (0 <= (1 - th) * b) by (apply Qmult_le_0_compat; lra).
      assert (0 <= cv * c) by (apply Qmult_le_0_compat; lra).
      unfold t. lra. }
  destruct (_clamp_spec 0 1 (Fin v)) as (q & -> & Hq).
  exists q. split; [reflexivity |].
  rewrite Hq, (clamp_spec_in_range 0 1 v Hrange), Hv, Hp, Hth, Hcv. reflexivity.
Qed.



(** With the default weights the score is
    [0.45 * psi + 0.35 * theta + 0.20 * (1 - cvar)] on the clamped inputs. *)
Theorem compute_omega_default_weights (psi theta cvar : pyfloat) :
  exists q,
    compute_omega psi theta cvar None = Some (Fin q) /\
    q == 0.45 * clamp01 psi + 0.35 * clamp01 theta + 0.20 * (1 - clamp01 cvar).
Proof.
  destruct (compute_omega_weighted psi theta cvar 0.45 0.35 0.20) as (q & Hq & Hqv);
    try lra.
  exists q. split; [exact Hq |]. rewrite Hqv. field.
Qed.

Lemma compute_omega_or_default (psi theta cvar : pyfloat) (weights : option OmegaWeights.t) :
  compute_omega psi theta cvar weights
  = compute_omega psi theta cvar (Some (weights_or_default weights)).
Proof. reflexivity. Qed.

(** For non-negative weights (the defaults included) the score grows with
    [psi] and [theta] and shrinks as [cvar] grows. *)
Theorem compute_omega_monotone
    (psi psi' theta theta' cvar cvar' a b c : Q) (weights : option OmegaWeights.t) :
  weights_or_default weights = OmegaWeights.mk (Fin a) (Fin b) (Fin c) ->
  0 <= a -> 0 <= b -> 0 <= c -> 0.000000000001 <= a + b + c ->
  psi <= psi' -> theta <= theta' -> cvar' <= cvar ->
  exists q q',
    compute_omega (Fin psi) (Fin theta) (Fin cvar) weights = Some (Fin q) /\
    compute_omega (Fin psi') (Fin theta') (Fin cvar') weights = Some (Fin q') /\
    q <= q'.
Proof.
  intros Hw Ha Hb Hc Hs Hpsi Hth Hcv.
  rewrite !(compute_omega_or_default _ _ _ weights), Hw.
  destruct (compute_omega_weighted (Fin psi) (Fin theta) (Fin cvar) a b c Ha Hb Hc Hs)
    as (q & Hq & Hqv).
  destruct (compute_omega_weighted (Fin psi') (Fin theta') (Fin cvar') a b c Ha Hb Hc Hs)
    as (q' & Hq' & Hqv').
  exists q, q'. split; [exact Hq |]. split; [exact Hq' |].
  rewrite Hqv, Hqv'. unfold clamp01.
  pose proof (clamp_spec_monotone 0 1 psi psi' Hpsi) as Mp.
  pose proof (clamp_spec_monotone 0 1 theta theta' Hth) as Mth.
  pose proof (clamp_spec_monotone 0 1 cvar' cvar Hcv) as Mcv.
  set (p := clamp_spec 0 1 (Fin psi)) in *. set (p' := clamp_spec 0 1 (Fin psi')) in *.
  set (t := clamp_spec 0 1 (Fin theta)) in *. set (t' := clamp_spec 0 1 (Fin theta')) in *.
  set (v := clamp_spec 0 1 (Fin cvar)) in *. set (v' := clamp_spec 0 1 (Fin cvar')) in *.
  apply Qle_shift_div_l; [lra |].
  setoid_replace ((p * a + t * b + (1 - v) * c) / (a + b + c) * (a + b + c))
    with (p * a + t * b + (1 - v) * c) using relation Qeq by (field; lra).
  assert (0 <= (p' - p) * a) by (apply Qmult_le_0_compat; lra).
  assert (0 <= (t' - t) * b) by (apply Qmult_le_0_compat; lra).
  assert (0 <= (v - v') * c) by (apply Qmult_le_0_compat; lra).
  lra.
Qed.

Lemma compute_omega_monotone_witness :
  exists q q',
    compute_omega (Fin 0.5) (Fin 0.5) (Fin 0.5) None = Some (Fin q) /\
    compute_omega (Fin 0.75) (Fin 0.5) (Fin 0.25) None = Some (Fin q') /\
    q <= q'.
Proof.
  apply (compute_omega_monotone 0.5 0.75 0.5 0.5 0.5 0.25 0.45 0.35 0.20 None);
    solve [reflexivity | lra].
Defined.

(** A weight triple with a non-finite component makes the score [0.0]: the
    non-finite value propagates through the weighted sum and the final clamp
    collapses it to the lower bound. *)
Theorem compute_omega_non_finite_weight
    (psi theta cvar : pyfloat) (w : OmegaWeights.t) :
  isfinite (OmegaWeights.psi w) && isfinite (OmegaWeights.theta w)
    && isfinite (OmegaWeights.cvar w) = false ->
  compute_omega psi theta cvar (Some w) = Some (Fin 0).
Proof.
  intros Hnf. unfold compute_omega, weights_or_default, _DEF_MIN, _DEF_MAX.
  destruct (_clamp_spec 0 1 psi) as (p & Hp & _).
  destruct (_clamp_spec 0 1 theta) as (th & Hth & _).
  destruct (_clamp_spec 0 1 cvar) as (cv & Hcv & _).
  destruct w as [a b c]. simpl in Hnf.
  unfold OmegaWeights.normalized, pymax, fgt.
  cbn [OmegaWeights.psi OmegaWeights.theta OmegaWeights.cvar].
  destruct a as [qa | | |], b as [qb | | |], c as [qc | | |]; try discriminate Hnf;
    cbn [fadd flt fdiv mbind option_bind]; qcases;
    cbn [fadd flt fdiv mbind option_bind inf_of_sign flip CompOpp Qsign]; qcases;
    try lra;
    cbn [mbind option_bind OmegaWeights.psi OmegaWeights.theta OmegaWeights.cvar];
    rewrite Hp, Hth, Hcv;
    cbn [fmul fadd fsub fneg inf_of_sign flip CompOpp];
    unfold Qsign;
    repeat match goal with
           | |- context [(?x ?= 0)] => destruct (x ?= 0)
           end;
    reflexivity.
Qed.

Lemma compute_omega_non_finite_weight_witness :
  compute_omega (Fin 0.9) (Fin 0.9) (Fin 0.1)
    (Some (OmegaWeights.mk PInf (Fin 1) (Fin 1))) = Some (Fin 0).
Proof. apply compute_omega_non_finite_weight. reflexivity. Defined.

(** * Further properties of the tail-mean estimator *)

Section TopMeans.








End TopMeans.

(** The value of [compute_qcvar] in terms of any descending arrangement of
    the finite samples. *)
Lemma compute_qcvar_on_sorted (samples : list pyfloat) (alpha : pyfloat) (sorted : list Q) :
  finite_values samples <> [] ->
  Permutation sorted (finite_values samples) -> descending sorted ->
  exists r, compute_qcvar samples alpha = Some (Fin r) /\
    r == mean (firstn (Z.to_nat (tail_size (len (finite_values samples)) alpha)) sorted).
Proof.
  intros Hne Hp Hd.
  destruct (compute_qcvar_eval samples alpha Hne) as (sorted' & r & Hp' & Hd' & Hr & Hm).
  exists r. split; [exact Hr |]. rewrite Hm. unfold mean.
  assert (Hpp : Permutation sorted' sorted) by (now rewrite Hp, Hp').
  assert (Hl : forall k, len (firstn k sorted') = len (firstn k sorted)).
  { intros k. unfold len. now rewrite !length_firstn, (Permutation_length Hpp). }
  rewrite (top_sum_unique _ sorted' sorted Hd' Hd Hpp), Hl. reflexivity.
Qed.



(** The estimate depends only on the multiset of finite samples: reordering
    the samples, or adding and removing [nan] and infinite entries, changes
    nothing. *)
Theorem compute_qcvar_permutation_invariant (s1 s2 : list pyfloat) (alpha : pyfloat) :
  Permutation (finite_values s1) (finite_values s2) ->
  exists r1 r2,
    compute_qcvar s1 alpha = Some (Fin r1) /\
    compute_qcvar s2 alpha = Some (Fin r2) /\ r1 == r2.
Proof.
  intros Hp. destruct (finite_values s1) as [| q qs] eqn:E1.
  - apply Permutation_nil in Hp. exists 0, 0.
    repeat split; now apply compute_qcvar_no_finite.
  - assert (Hne1 : finite_values s1 <> []) by congruence.
    assert (Hne2 : finite_values s2 <> []).
    { intros E2. rewrite E2 in Hp. apply Permutation_sym, Permutation_nil in Hp.
      discriminate. }
    rewrite <- E1 in Hp.
    destruct (sorted_reverse_finite (finite_values s1)) as (sorted & _ & Hps & Hd).
    destruct (compute_qcvar_on_sorted s1 alpha sorted Hne1 Hps Hd) as (r1 & Hr1 & Hm1).
    destruct (compute_qcvar_on_sorted s2 alpha sorted Hne2) as (r2 & Hr2 & Hm2);
      [now rewrite Hps | exact Hd |].
    exists r1, r2. split; [exact Hr1 |]. split; [exact Hr2 |].
    rewrite Hm1, Hm2. unfold len. now rewrite (Permutation_length Hp).
Qed.

Lemma compute_qcvar_permutation_invariant_witness :
  exists r1 r2,
    compute_qcvar [Fin 0.1; NaN; Fin 0.8; Fin 0.5] (Fin 0.5) = Some (Fin r1) /\
    compute_qcvar [Fin 0.8; Fin 0.5; PInf; NInf; Fin 0.1] (Fin 0.5) = Some (Fin r2) /\
    r1 == r2.
Proof.
  apply compute_qcvar_permutation_invariant. simpl.
  apply Permutation_cons_append.
Defined.







(** * Further properties of the barrier and of the antifragility metric *)

Lemma barrier_flags (omega_score qcvar omega_threshold qcvar_limit : pyfloat) :
  let b := validate_governance_barrier omega_score qcvar omega_threshold qcvar_limit in
  (omega_ok b = true <-> clamp01 omega_threshold <= clamp01 omega_score) /\
  (qcvar_ok b = true <-> clamp01 qcvar <= clamp01 qcvar_limit) /\
  (barrier_production_ready b = true <-> omega_ok b = true /\ qcvar_ok b = true).
Proof.
  unfold validate_governance_barrier, clamp01, _DEF_MIN, _DEF_MAX.
  destruct (_clamp_spec 0 1 omega_score) as (s & -> & Hs).
  destruct (_clamp_spec 0 1 qcvar) as (c & -> & Hc).
  destruct (_clamp_spec 0 1 omega_threshold) as (t & -> & Ht).
  destruct (_clamp_spec 0 1 qcvar_limit) as (l & -> & Hl).
  simpl. unfold fge, fle. rewrite andb_true_iff, !Qle_bool_iff.
  repeat split; try tauto; lra.
Qed.

(** Non-finite arguments are read as [0.0]: a non-finite threshold lets every
    score pass, a non-finite [qcvar] passes every limit, while a non-finite
    score passes only a threshold that clamps to [0] and a non-finite limit
    admits only a [qcvar] that clamps to [0]. *)
Theorem validate_governance_barrier_non_finite
    (omega_score qcvar omega_threshold qcvar_limit : pyfloat) :
  let b := validate_governance_barrier omega_score qcvar omega_threshold qcvar_limit in
  (isfinite omega_threshold = false -> omega_ok b = true) /\
  (isfinite qcvar = false -> qcvar_ok b = true) /\
  (isfinite omega_score = false ->
     (omega_ok b = true <-> clamp01 omega_threshold == 0)) /\
  (isfinite qcvar_limit = false ->
     (qcvar_ok b = true <-> clamp01 qcvar == 0)).
Proof.
  cbv zeta.
  destruct (barrier_flags omega_score qcvar omega_threshold qcvar_limit) as (Ho & Hq & _).
  cbv zeta in Ho, Hq.
  pose proof (clamp_spec_bounds 0 1 omega_score ltac:(lra)) as Bs.
  pose proof (clamp_spec_bounds 0 1 qcvar ltac:(lra)) as Bq.
  pose proof (clamp_spec_bounds 0 1 omega_threshold ltac:(lra)) as Bt.
  pose proof (clamp_spec_bounds 0 1 qcvar_limit ltac:(lra)) as Bl.
  fold clamp01 in Bs, Bq, Bt, Bl.
  assert (Hnf : forall x, isfinite x = false -> clamp01 x = 0)
    by (intros [| | |]; [discriminate | reflexivity ..]).
  repeat split.
  - intros H. apply Ho. rewrite (Hnf _ H). lra.
  - intros H. apply Hq. rewrite (Hnf _ H). lra.
  - intros Hok. apply Ho in Hok. rewrite (Hnf _ H) in Hok. lra.
  - intros Hz. apply Ho. rewrite (Hnf _ H). lra.
  - intros Hok. apply Hq in Hok. rewrite (Hnf _ H) in Hok. lra.
  - intros Hz. apply Hq. rewrite (Hnf _ H). lra.
Qed.

(** Readiness is monotone: a better score, a lower risk, a lower threshold or
    a higher limit never turn a ready verdict into a not-ready one. *)
Theorem validate_governance_barrier_monotone (s s' q q' t t' l l' : Q) :
  s <= s' -> q' <= q -> t' <= t -> l <= l' ->
  barrier_production_ready
    (validate_governance_barrier (Fin s) (Fin q) (Fin t) (Fin l)) = true ->
  barrier_production_ready
    (validate_governance_barrier (Fin s') (Fin q') (Fin t') (Fin l')) = true.
Proof.
  intros Hs Hq Ht Hl Hready.
  destruct (barrier_flags (Fin s) (Fin q) (Fin t) (Fin l)) as (Ho1 & Hq1 & Hr1).
  destruct (barrier_flags (Fin s') (Fin q') (Fin t') (Fin l')) as (Ho2 & Hq2 & Hr2).
  cbv zeta in *. apply Hr1 in Hready as [Hok Hqk].
  apply Ho1 in Hok. apply Hq1 in Hqk. apply Hr2. unfold clamp01 in *.
  pose proof (clamp_spec_monotone 0 1 s s' Hs).
  pose proof (clamp_spec_monotone 0 1 q' q Hq).
  pose proof (clamp_spec_monotone 0 1 t' t Ht).
  pose proof (clamp_spec_monotone 0 1 l l' Hl).
  split; [apply Ho2 | apply Hq2]; lra.
Qed.

Lemma validate_governance_barrier_monotone_witness :
  barrier_production_ready
    (validate_governance_barrier (Fin 0.97) (Fin 0.02) (Fin 0.85) (Fin 0.2)) = true.
Proof.
  apply (validate_governance_barrier_monotone 0.95 0.97 0.05 0.02 0.9 0.85 0.1 0.2);
    solve [lra | reflexivity].
Defined.

(** The metric is antisymmetric in its two measurements, and
    [is_antifragile] holds exactly when the coefficient is strictly positive,
    so it never holds in both directions; two measurements with the same
    clamped value (for instance both above 1) show no improvement. *)
Theorem antifragile_metric_sign (before after : pyfloat) (stress_applied : bool) :
  exists d d' c,
    improvement (antifragile_metric before after stress_applied) = Fin d /\
    improvement (antifragile_metric after before stress_applied) = Fin d' /\
    d' == - d /\
    antifragile_coefficient (antifragile_metric before after stress_applied) = Fin c /\
    (is_antifragile (antifragile_metric before after stress_applied) = true <-> 0 < c) /\
    (is_antifragile (antifragile_metric before after stress_applied) = true ->
     is_antifragile (antifragile_metric after before stress_applied) = false) /\
    (clamp01 before == clamp01 after -> d == 0).
Proof.
  unfold antifragile_metric, clamp01, _DEF_MIN, _DEF_MAX.
  destruct (_clamp_spec 0 1 before) as (b & -> & Hb).
  destruct (_clamp_spec 0 1 after) as (a & -> & Ha).
  exists (a + - b), (b + - a), (if stress_applied then a + - b else 0).
  simpl. unfold fgt, flt.
  split; [reflexivity |]. split; [reflexivity |]. split; [lra |].
  split; [now destruct stress_applied |].
  split; [| split].
  - rewrite andb_true_iff, Qltb_true. destruct stress_applied; split;
      try tauto; try (intros [? ?]; discriminate); intros; lra.
  - rewrite andb_true_iff, Qltb_true. intros [_ Hpos].
    apply andb_false_iff. right. apply Qltb_false. lra.
  - intros Heq. lra.
Qed.

(** * Further properties of the validator *)

(** ** The configuration *)

Lemma _clamp_twice (lo hi : Q) (x : pyfloat) :
  _clamp (_clamp x (Fin lo) (Fin hi)) (Fin lo) (Fin hi) = _clamp x (Fin lo) (Fin hi).
Proof.
  destruct x as [v | | |]; unfold _clamp, pymax, pymin, fgt, flt; simpl;
    qcases; simpl; qcases; simpl; qcases; try reflexivity; lra.
Qed.

Lemma __init___coerced (ot ql qa : pyfloat) (mh ms : Z) :
  config_coerced (__init__ ot ql qa mh ms).
Proof.
  unfold config_coerced, __init__, _DEF_MIN, _DEF_MAX; simpl.
  change (Fin (1 + - 0.000001)) with (Fin (1 - 0.000001)).
  rewrite !_clamp_twice. repeat split; lia.
Qed.

Lemma validate_system_config (psi theta cvar : pyfloat) (weights : option OmegaWeights.t)
    (self self' : OmegaValidator.t) (σ σ' : heap) (res : Validation) :
  validate_system psi theta cvar weights self σ = Some (res, self', σ') ->
  config self' = config self.
Proof.
  unfold validate_system, _trim_history. intros H.
  destruct (compute_omega psi theta cvar weights); [| discriminate].
  cbn [mbind option_bind alloc] in H.
  repeat match type of H with
         | context [trim ?m ?l] => destruct (trim m l); cbn [mbind option_bind] in H;
                                   [| discriminate]
         end.
  destruct (_compute_qcvar_history _); [| discriminate].
  cbn [mbind option_bind] in H. injection H as _ <- _. reflexivity.
Qed.

Lemma reachable_config_coerced (self : OmegaValidator.t) (σ : heap) :
  reachable self σ -> config_coerced self.
Proof.
  induction 1 as [ot ql qa mh ms σ
                 | self self' σ σ' psi theta cvar w res _ IH Hstep
                 | | self σ _ IH | ]; auto.
  - apply __init___coerced.
  - apply validate_system_config in Hstep. unfold config in Hstep.
    injection Hstep as E1 E2 E3 E4 E5. unfold config_coerced.
    rewrite E1, E2, E3, E4, E5. exact IH.
Qed.

(** The configuration is fixed at construction: in every state the two
    thresholds lie in [[0, 1]], [qcvar_alpha] in [[1e-6, 1 - 1e-6]], and
    [max_history] and [min_samples] are at least 1; [validate_system] and
    [reset] leave all five unchanged. *)
Theorem validator_config_fixed (self : OmegaValidator.t) (σ : heap) :
  reachable self σ ->
  unit_float (omega_threshold self) /\ unit_float (qcvar_limit self) /\
  (exists a, qcvar_alpha self = Fin a /\ 0.000001 <= a <= 1 - 0.000001) /\
  (1 <= max_history self)%Z /\ (1 <= min_samples self)%Z /\
  config (reset self) = config self /\
  (forall psi theta cvar weights res self' σ',
     validate_system psi theta cvar weights self σ = Some (res, self', σ') ->
     config self' = config self).
Proof.
  intros Hr. destruct (reachable_config_coerced _ _ Hr) as (H1 & H2 & H3 & H4 & H5).
  split; [rewrite <- H1; apply _clamp_unit_float |].
  split; [rewrite <- H2; apply _clamp_unit_float |].
  split.
  { rewrite <- H3. change (fsub (Fin 1) (Fin 0.000001)) with (Fin (1 - 0.000001)).
    apply _clamp_bounds. lra. }
  split; [lia |]. split; [lia |]. split; [reflexivity |].
  intros psi theta cvar weights res self' σ'. apply validate_system_config.
Qed.

Lemma validator_config_fixed_witness :
  unit_float (omega_threshold (fst demo_state)) /\
  (1 <= max_history (fst demo_state))%Z.
Proof.
  destruct (validator_config_fixed (fst demo_state) (snd demo_state) demo_state_reachable)
    as (H1 & _ & _ & H4 & _).
  split; assumption.
Defined.

(** [reset] brings the validator back to the state of a new validator with
    the same configuration. *)
Theorem reset_is_fresh_validator (self : OmegaValidator.t) (σ : heap) :
  reachable self σ ->
  reset self = __init__ (omega_threshold self) (qcvar_limit self) (qcvar_alpha self)
                 (max_history self) (min_samples self) /\
  reset (reset self) = reset self.
Proof.
  intros Hr. destruct (reachable_config_coerced _ _ Hr) as (H1 & H2 & H3 & H4 & H5).
  split; [| reflexivity].
  unfold reset, with_histories, __init__. now rewrite H1, H2, H3, H4, H5.
Qed.

Lemma reset_is_fresh_validator_witness :
  reset (fst demo_state)
  = __init__ (omega_threshold (fst demo_state)) (qcvar_limit (fst demo_state))
      (qcvar_alpha (fst demo_state)) (max_history (fst demo_state))
      (min_samples (fst demo_state)).
Proof.
  apply (reset_is_fresh_validator (fst demo_state) (snd demo_state) demo_state_reachable).
Defined.

(** ** Readiness *)

Lemma after_validate_history_size (self : OmegaValidator.t) (r : loc)
    (omega safe_cvar : pyfloat) :
  (1 <= max_history self)%Z ->
  len (_history (after_validate self r omega safe_cvar))
  = Z.min (len (_history self) + 1) (max_history self).
Proof.
  intros Hm. cbn [after_validate with_histories _history]. unfold len.
  rewrite newest_length, length_app. simpl length. lia.
Qed.

(** What a call returns and what the health snapshot then reports: the
    history size is the old one plus one, capped at [max_history]; the
    verdict returned by [validate_system] is not gated by [min_samples],
    the one of [get_system_health] is the same verdict and the gate. *)
Theorem validate_system_then_health
    (self : OmegaValidator.t) (σ : heap)
    (psi theta cvar : pyfloat) (weights : option OmegaWeights.t) :
  reachable self σ ->
  exists res self' σ' h,
    validate_system psi theta cvar weights self σ = Some (res, self', σ') /\
    get_system_health self' = Some h /\
    Some (v_omega res) = compute_omega psi theta cvar weights /\
    v_history_size res = Z.min (len (_history self) + 1) (max_history self) /\
    (1 <= v_history_size res <= max_history self)%Z /\
    sample_count h = v_history_size res /\
    v_production_ready res =
      barrier_production_ready
        (validate_governance_barrier (v_omega res) (v_qcvar res)
           (omega_threshold self) (qcvar_limit self)) /\
    h_production_ready h =
      v_production_ready res && (min_samples self <=? v_history_size res)%Z.
Proof.
  intros Hr. pose proof (reachable_valid _ _ Hr) as Hv.
  pose proof (valid_max _ Hv) as Hm.
  destruct (validate_system_post psi theta cvar weights self σ Hm)
    as (omega & q & Hom & _ & Hq & Heq). cbv zeta in Hq, Heq.
  set (self' := after_validate self (fresh (dom σ)) omega (_clamp cvar _DEF_MIN _DEF_MAX)) in *.
  destruct (get_system_health_post self') as (q' & Hq' & Hh). cbv zeta in Hh.
  change (qcvar_alpha self') with (qcvar_alpha self) in Hq'.
  rewrite Hq in Hq'. injection Hq' as <-.
  assert (Hlast : default (Fin 0) (last (_omega_history self')) = omega).
  { cbn [self' after_validate with_histories _omega_history].
    now rewrite last_newest_snoc by exact Hm. }
  rewrite Hlast in Hh.
  pose proof (after_validate_history_size self (fresh (dom σ)) omega
                (_clamp cvar _DEF_MIN _DEF_MAX) Hm) as Hsize.
  fold self' in Hsize. pose proof (len_nonneg (_history self)) as Hn.
  eexists _, _, _, _. split; [exact Heq |]. split; [exact Hh |].
  cbn [v_omega v_qcvar v_history_size v_production_ready sample_count h_production_ready].
  split; [now rewrite Hom |]. split; [exact Hsize |]. split; [lia |].
  split; [reflexivity |]. split; [reflexivity |].
  change (omega_threshold self') with (omega_threshold self).
  change (qcvar_limit self') with (qcvar_limit self).
  change (min_samples self') with (min_samples self).
  rewrite Z.geb_leb. now destruct (_ <=? _)%Z; rewrite ?andb_true_r, ?andb_false_r.
Qed.

Lemma validate_system_then_health_witness :
  exists res self' σ' h,
    validate_system (Fin 0.9) (Fin 0.9) (Fin 0.05) None (fst demo_state) (snd demo_state)
      = Some (res, self', σ') /\
    get_system_health self' = Some h /\
    v_history_size res = 3%Z /\ v_production_ready res = true /\
    h_production_ready h = true.
Proof.
  destruct (validate_system_then_health (fst demo_state) (snd demo_state)
              (Fin 0.9) (Fin 0.9) (Fin 0.05) None demo_state_reachable)
    as (res & self' & σ' & h & Hv & Hh & _ & Hs & _ & _ & _ & Hp).
  assert (E : validate_system (Fin 0.9) (Fin 0.9) (Fin 0.05) None
                (fst demo_state) (snd demo_state)
              = Some (res, self', σ')) by exact Hv.
  vm_compute in E. injection E as <- _ _.
  eexists _, self', σ', h. split; [exact Hv |]. split; [exact Hh |].
  split; [reflexivity |]. split; [reflexivity |]. rewrite Hp. reflexivity.
Defined.

(** A validator whose [max_history] is smaller than its [min_samples] can
    never report readiness through [get_system_health]: its history never
    holds enough samples to open the gate. *)
Theorem health_never_ready_when_history_too_short (self : OmegaValidator.t) (σ : heap) :
  reachable self σ ->
  (max_history self < min_samples self)%Z ->
  exists h, get_system_health self = Some h /\ h_production_ready h = false.
Proof.
  intros Hr Hlt. pose proof (valid_bound _ (reachable_valid _ _ Hr)) as Hb.
  destruct (get_system_health_post self) as (q & _ & Hh). cbv zeta in Hh.
  eexists. split; [exact Hh |]. cbn [h_production_ready].
  destruct (_ >=? _)%Z eqn:E; [| reflexivity].
  rewrite Z.geb_leb in E. apply Z.leb_le in E. lia.
Qed.

Lemma demo_short_state_reachable :
  reachable (fst demo_short_state) (snd demo_short_state).
Proof.
  apply (validate_all_reachable [demo_call; demo_call; demo_call]
           (__init__ (Fin 0.5) (Fin 0.5) (Fin 0.9) 2 5) _ ∅).
  - apply reach_init.
  - vm_compute. reflexivity.
Qed.

Lemma health_never_ready_when_history_too_short_witness :
  exists h, get_system_health (fst demo_short_state) = Some h /\
            h_production_ready h = false.
Proof.
  apply (health_never_ready_when_history_too_short _ (snd demo_short_state)).
  - exact demo_short_state_reachable.
  - vm_compute. reflexivity.
Defined.

(** ** Stored records *)

Section Records.

Implicit Types (σ : gmap nat (gmap string pyfloat)) (self : OmegaValidator.t).

Lemma map_newest {A B : Type} (f : A -> B) (m : Z) (l : list A) :
  map f (newest m l) = newest m (map f l).
Proof. unfold newest. now rewrite skipn_map, length_map. Qed.

Lemma field_of_make_record σ (l : nat) (p t c o : pyfloat) :
  σ !! l = Some (make_record p t c o) ->
  field_of σ "psi" l = Some p /\ field_of σ "theta" l = Some t /\
  field_of σ "cvar" l = Some c /\ field_of σ "omega" l = Some o.
Proof.
  intros H. unfold field_of, make_record. rewrite H. cbn [mbind option_bind].
  repeat split; now simplify_map_eq.
Qed.

Lemma in_lock_step_ext self σ σ' :
  (forall l, List.In l (_history self) -> σ' !! l = σ !! l) ->
  in_lock_step self σ -> in_lock_step self σ'.
Proof.
  intros Hsame (Ho & Hc & Hpt).
  assert (Hf : forall key l, List.In l (_history self) -> field_of σ' key l = field_of σ key l)
    by (intros key l Hl; unfold field_of; now rewrite Hsame).
  split; [| split].
  - rewrite <- Ho. apply map_ext_in. intros; now apply Hf.
  - rewrite <- Hc. apply map_ext_in. intros; now apply Hf.
  - rewrite List.Forall_forall in Hpt |- *. intros l Hl.
    destruct (Hpt l Hl) as (p & t & H1 & H2 & H3 & H4).
    exists p, t. rewrite !Hf by exact Hl. auto.
Qed.

Lemma after_validate_lock_step self σ (p t c o : pyfloat) :
  owns self σ -> in_lock_step self σ -> unit_float p -> unit_float t ->
  in_lock_step (after_validate self (fresh (dom σ)) o c)
    (<[fresh (dom σ) := make_record p t c o]> σ).
Proof.
  intros Hown Hls Hp Ht.
  set (r := fresh (dom σ)). set (σ' := <[r := make_record p t c o]> σ).
  assert (Hsame : forall l, List.In l (_history self) -> σ' !! l = σ !! l).
  { intros l Hl. apply insert_fresh_other.
    unfold owns in Hown. rewrite List.Forall_forall in Hown. auto. }
  destruct (in_lock_step_ext self σ σ' Hsame Hls) as (Ho & Hc & Hpt).
  assert (Hr : σ' !! r = Some (make_record p t c o)) by apply lookup_insert_eq.
  destruct (field_of_make_record σ' r p t c o Hr) as (Fp & Ft & Fc & Fo).
  unfold in_lock_step. cbn [after_validate with_histories _history _omega_history _cvar_history].
  rewrite !map_newest, !map_app. simpl map. rewrite Ho, Hc, Fo, Fc.
  split; [reflexivity |]. split; [reflexivity |].
  apply newest_Forall, Forall_app. split; [exact Hpt |].
  constructor; [| constructor]. exists p, t. auto.
Qed.

Lemma reachable_lock_step self σ : reachable self σ -> in_lock_step self σ.
Proof.
  induction 1 as [ot ql qa mh ms σ
                 | self self' σ σ' psi theta cvar w res Hr IH Hstep
                 | self σ σ' s Hr IH Hsum
                 | self σ _ IH
                 | self σ l d Hr IH Hl ].
  - repeat split; constructor.
  - destruct (validate_system_post psi theta cvar w self σ
                (valid_max _ (reachable_valid _ _ Hr)))
      as (omega & q & _ & _ & _ & Heq).
    rewrite Heq in Hstep. injection Hstep as _ <- <-.
    apply after_validate_lock_step; auto using reachable_owns, _clamp_unit_float.
  - pose proof (reachable_owns _ _ Hr) as Hown.
    destruct (get_validation_summary_post self σ Hown)
      as (s' & σ1 & Heq & _ & _ & Hpres & _).
    rewrite Heq in Hsum. injection Hsum as _ <-.
    apply (in_lock_step_ext self σ); [| exact IH].
    intros l0 H0. apply Hpres. unfold owns in Hown.
    rewrite List.Forall_forall in Hown. auto.
  - repeat split; constructor.
  - apply (in_lock_step_ext self σ); [| exact IH].
    intros l0 H0. apply lookup_insert_ne. intros ->. contradiction.
Qed.

End Records.

(** The stored records and the two derived sequences run in lock-step: in
    every state the [omega] and [cvar] items of the stored records are, in
    order, the entries of the omega and cvar histories, and all four items of
    every record lie in [[0, 1]]. *)
Theorem records_in_lock_step (self : OmegaValidator.t) (σ : heap) :
  reachable self σ ->
  map (field_of σ "omega") (_history self) = map Some (_omega_history self) /\
  map (field_of σ "cvar") (_history self) = map Some (_cvar_history self) /\
  List.Forall
    (fun l => exists p t c o,
       field_of σ "psi" l = Some p /\ unit_float p /\
       field_of σ "theta" l = Some t /\ unit_float t /\
       field_of σ "cvar" l = Some c /\ unit_float c /\
       field_of σ "omega" l = Some o /\ unit_float o)
    (_history self).
Proof.
  intros Hr. destruct (reachable_lock_step _ _ Hr) as (Ho & Hc & Hpt).
  pose proof (reachable_valid _ _ Hr) as Hv.
  split; [exact Ho |]. split; [exact Hc |].
  rewrite List.Forall_forall in Hpt |- *. intros l Hl.
  destruct (Hpt l Hl) as (p & t & H1 & H2 & H3 & H4).
  assert (Hfield : forall (f : nat -> option pyfloat) (vals : list pyfloat),
             map f (_history self) = map Some vals -> List.Forall unit_float vals ->
             exists v, f l = Some v /\ unit_float v).
  { intros f vals Hmap Hall.
    pose proof (in_map f _ _ Hl) as Hin. rewrite Hmap in Hin.
    apply in_map_iff in Hin as (v & Hv1 & Hv2).
    exists v. split; [now symmetry |]. rewrite List.Forall_forall in Hall. auto. }
  destruct (Hfield _ _ Hc (valid_cvar _ Hv)) as (c & Hc1 & Hc2).
  destruct (Hfield _ _ Ho (valid_omega _ Hv)) as (o & Ho1 & Ho2).
  exists p, t, c, o. auto 10.
Qed.

Lemma records_in_lock_step_witness :
  map (field_of (snd demo_short_state) "omega") (_history (fst demo_short_state))
  = map Some (_omega_history (fst demo_short_state)).
Proof.
  apply (records_in_lock_step _ _ demo_short_state_reachable).
Defined.

(** ** The structure of a summary *)

Section SummaryStructure.

Implicit Types (σ : gmap nat (gmap string pyfloat)) (ls : list nat).

Lemma copy_entries_distinct ls σ ls' σ' :
  copy_entries ls σ = Some (ls', σ') ->
  NoDup ls' /\ length ls' = length ls /\
  (forall l, is_Some (σ !! l) -> is_Some (σ' !! l)) /\
  List.Forall (fun l => σ !! l = None /\ is_Some (σ' !! l)) ls'.
Proof.
  revert σ ls' σ'. induction ls as [| entry rest IH]; intros σ ls' σ' H.
  - simpl in H. injection H as <- <-. repeat split; auto; constructor.
  - simpl in H. destruct (σ !! entry) as [d |] eqn:Hd; [| discriminate].
    cbn [mbind option_bind alloc] in H.
    set (l := fresh (dom σ)) in *. set (σ1 := <[l := d]> σ) in *.
    destruct (copy_entries rest σ1) as [[ls1 σ2] |] eqn:Hrec; [| discriminate].
    cbn [mbind option_bind] in H. injection H as <- <-.
    destruct (IH _ _ _ Hrec) as (Hnd & Hlen & Hpres & Hnew).
    assert (Hl1 : is_Some (σ1 !! l)) by (unfold σ1; rewrite lookup_insert_eq; eauto).
    rewrite List.Forall_forall in Hnew.
    split; [| split; [| split]].
    + constructor; [| exact Hnd]. intros Hin. apply list_elem_of_In in Hin.
      destruct (Hnew _ Hin) as [Hnone _]. rewrite Hnone in Hl1. now destruct Hl1.
    + simpl. now rewrite Hlen.
    + intros l0 H0. apply Hpres. unfold σ1, l. now rewrite insert_fresh_other.
    + constructor.
      * split; [apply fresh_unused | now apply Hpres].
      * rewrite List.Forall_forall. intros l0 H0. destruct (Hnew _ H0) as [Hn Hs].
        split; [| exact Hs]. unfold σ1 in Hn. apply lookup_insert_None in Hn. tauto.
Qed.

Lemma get_validation_summary_inv (self : OmegaValidator.t) σ (s : Summary) σ' :
  get_validation_summary self σ = Some (s, σ') ->
  exists σ1,
    copy_entries (_history self) σ = Some (history s, σ1) /\
    ((history s = [] /\ latest s = fresh (dom σ1) /\ σ' = <[latest s := ∅]> σ1) \/
     (last (history s) = Some (latest s) /\ σ' = σ1)).
Proof.
  unfold get_validation_summary. intros H.
  destruct (copy_entries (_history self) σ) as [[ls σ1] |]; [| discriminate].
  cbn [mbind option_bind] in H. exists σ1.
  destruct ls as [| l0 rest].
  - cbn [mbind option_bind alloc] in H.
    destruct (match _cvar_history self with [] => _ | _ :: _ => _ end); [| discriminate].
    cbn [mbind option_bind] in H. injection H as <- <-. simpl. split; [reflexivity |].
    left. auto.
  - unfold last_item in H. destruct (last (l0 :: rest)) as [ll |] eqn:El; [| discriminate].
    cbn [mbind option_bind] in H.
    destruct (match _cvar_history self with [] => _ | _ :: _ => _ end); [| discriminate].
    cbn [mbind option_bind] in H. injection H as <- <-. simpl history. simpl latest.
    split; [reflexivity |]. right. auto.
Qed.

End SummaryStructure.

(** The shape of a summary.  [history] holds one new dictionary per stored
    record, all distinct from one another and none of them a dictionary that
    existed before the call; [latest] is the very dictionary [history[-1]]
    (so a change made through one is seen through the other), or a new empty
    dictionary when the history is empty; and a second summary shares no
    dictionary with the first. *)
Theorem summary_structure (self : OmegaValidator.t) (σ : heap) :
  reachable self σ ->
  exists s σ',
    get_validation_summary self σ = Some (s, σ') /\
    length (history s) = length (_history self) /\
    NoDup (history s) /\
    List.Forall (fun l => σ !! l = None /\ is_Some (σ' !! l)) (history s) /\
    (history s = [] -> σ !! latest s = None /\ σ' !! latest s = Some ∅) /\
    (history s <> [] -> last (history s) = Some (latest s)) /\
    (exists s2 σ'',
       get_validation_summary self σ' = Some (s2, σ'') /\
       forall l, List.In l (history s) -> ~ List.In l (history s2)).
Proof.
  intros Hr. pose proof (reachable_owns _ _ Hr) as Hown.
  destruct (get_validation_summary_post self σ Hown)
    as (s & σ' & Heq & _ & _ & _ & _ & Hlnew & _).
  destruct (get_validation_summary_inv self σ s σ' Heq) as (σ1 & Hcopy & Hcase).
  destruct (copy_entries_distinct _ _ _ _ Hcopy) as (Hnd & Hlen & Hpres & Hnew).
  assert (Hnew' : List.Forall (fun l => σ !! l = None /\ is_Some (σ' !! l)) (history s)).
  { destruct Hcase as [(Hempty & _ & _) | (_ & ->)]; [| exact Hnew].
    rewrite Hempty. constructor. }
  exists s, σ'. split; [exact Heq |]. split; [exact Hlen |]. split; [exact Hnd |].
  split; [exact Hnew' |]. split; [| split].
  - intros Hempty. split; [exact Hlnew |].
    destruct Hcase as [(_ & _ & ->) | (Hlast & _)].
    + apply lookup_insert_eq.
    + rewrite Hempty in Hlast. discriminate.
  - intros Hne. destruct Hcase as [(Hempty & _) | (Hlast & _)]; [congruence | exact Hlast].
  - pose proof (reach_summary _ _ _ _ Hr Heq) as Hr'.
    destruct (get_validation_summary_post self σ' (reachable_owns _ _ Hr'))
      as (s2 & σ'' & Heq2 & _ & _ & _ & Hnew2 & _).
    exists s2, σ''. split; [exact Heq2 |]. intros l Hl Hl2.
    rewrite List.Forall_forall in Hnew', Hnew2.
    destruct (Hnew' l Hl) as [_ [d Hd]]. rewrite (Hnew2 l Hl2) in Hd. discriminate.
Qed.

Lemma summary_structure_witness :
  exists s σ',
    get_validation_summary (fst demo_state) (snd demo_state) = Some (s, σ') /\
    length (history s) = 2%nat /\ last (history s) = Some (latest s).
Proof.
  destruct (summary_structure (fst demo_state) (snd demo_state) demo_state_reachable)
    as (s & σ' & Heq & Hlen & _ & _ & _ & Hlast & _).
  exists s, σ'. split; [exact Heq |]. split; [exact Hlen |].
  apply Hlast. intros E. rewrite E in Hlen. discriminate Hlen.
Defined.

(** A summary and a health snapshot taken in the same state agree: the same
    [qcvar], the validator's thresholds, as many history entries as
    [sample_count]; the copies carry, in order, the recorded omega and cvar
    values, and when a record exists the [omega] item of [latest] is
    [latest_omega]. *)
Theorem summary_agrees_with_health (self : OmegaValidator.t) (σ : heap) :
  reachable self σ ->
  exists s σ' h,
    get_validation_summary self σ = Some (s, σ') /\
    get_system_health self = Some h /\
    s_qcvar s = h_qcvar h /\
    s_omega_threshold s = omega_threshold self /\
    s_qcvar_limit s = qcvar_limit self /\
    len (history s) = sample_count h /\
    map (field_of σ' "omega") (history s) = map Some (_omega_history self) /\
    map (field_of σ' "cvar") (history s) = map Some (_cvar_history self) /\
    (_history self <> [] -> field_of σ' "omega" (latest s) = Some (latest_omega h)).
Proof.
  intros Hr. pose proof (reachable_owns _ _ Hr) as Hown.
  destruct (reachable_lock_step _ _ Hr) as (Ho & Hc & _).
  destruct (get_validation_summary_post self σ Hown)
    as (s & σ' & Heq & Hcont & Hlat & _ & _ & _ & Hq & Hot & Hql).
  destruct (get_system_health_post self) as (q & Hq' & Hh). cbv zeta in Hh.
  rewrite Hq in Hq'. injection Hq' as Hsq.
  assert (Hfield : forall key,
             map (field_of σ' key) (history s) = map (field_of σ key) (_history self)).
  { intros key. unfold contents in Hcont.
    apply (f_equal (map (fun od : option (gmap string pyfloat) => d ← od; d !! key))) in Hcont.
    rewrite !map_map in Hcont. exact Hcont. }
  eexists s, σ', _. split; [exact Heq |]. split; [exact Hh |].
  cbn [h_qcvar sample_count latest_omega].
  split; [exact Hsq |]. split; [exact Hot |]. split; [exact Hql |].
  split; [| split; [| split]].
  - unfold len. f_equal. apply (f_equal (@length _)) in Hcont.
    unfold contents in Hcont. now rewrite !length_map in Hcont.
  - now rewrite Hfield.
  - now rewrite Hfield.
  - intros Hne. unfold field_of at 1. rewrite Hlat.
    apply (f_equal last) in Ho. rewrite !last_map in Ho.
    destruct (last (_history self)) as [hl |] eqn:El.
    + simpl in Ho. destruct (last (_omega_history self)); simpl in Ho; [| discriminate].
      injection Ho as Ho. exact Ho.
    + apply last_None in El. congruence.
Qed.

Lemma summary_agrees_with_health_witness :
  exists s σ' h,
    get_validation_summary (fst demo_state) (snd demo_state) = Some (s, σ') /\
    get_system_health (fst demo_state) = Some h /\
    s_qcvar s = h_qcvar h /\
    field_of σ' "omega" (latest s) = Some (latest_omega h).
Proof.
  destruct (summary_agrees_with_health (fst demo_state) (snd demo_state)
              demo_state_reachable)
    as (s & σ' & h & Hs & Hh & Hq & _ & _ & _ & _ & _ & Hl).
  exists s, σ', h. split; [exact Hs |]. split; [exact Hh |]. split; [exact Hq |].
  apply Hl. vm_compute. discriminate.
Defined.
